(** * ipwraplib: a shallow embedding of [src/ipwraplib.py]

    The module wraps a few unix commands ([iwconfig], [ip route show], [dig]),
    the [/proc/net/arp] pseudo-file and the system resolver, and offers the
    CIDR arithmetic of [mask_ip].  The code is Python 2: the output of
    [subprocess.check_output] is a [str] that is searched with [str] patterns.

    A Python [str] is modelled as a [list ascii], a Python [int] as a [Z]
    (Python integers are unbounded, there is no wrap-around), a raised
    exception as the [Raise] case of [outcome], a [dict] as a [gmap]. *)
From Stdlib Require Import ZArith Lia Ascii.
From stdpp Require Import prelude gmap strings.

Local Open Scope char_scope.
Local Open Scope Z_scope.

(** ** Python values: strings and exceptions *)

Abbreviation pystr := (list ascii).

(** A string literal of the source. *)
Definition pys (s : string) : pystr := String.list_ascii_of_string s.

Inductive exn : Set :=
  | ValueError
  | OSError
  | CalledProcessError
  | SocketError        (* socket.error and its subclasses gaierror, herror *)
  | IOError
  | OverflowError.

Inductive outcome (A : Type) : Type :=
  | Ret (a : A)
  | Raise (e : exn).
Arguments Ret {A} a.
Arguments Raise {A} e.

Definition bind {A B} (m : outcome A) (k : A → outcome B) : outcome B :=
  match m with
  | Ret a => k a
  | Raise e => Raise e
  end.

Notation "'do' x <- m ; k" := (bind m (fun x => k))
  (at level 10, x name, m at level 100, k at level 200,
   format "'[v' 'do'  x  <-  m ; '/' k ']'").

(** ** String primitives of Python 2 *)

Module Py.

(** [str.isspace] on one character; it is also the class [\s] of [re] for
    [str] patterns without [re.UNICODE] or [re.LOCALE]. *)
Definition isspace (c : ascii) : bool :=
  match c with
  | " " | "009" | "010" | "011" | "012" | "013" => true
  | _ => false
  end.

(** The value of [c] as a digit, as [int(s, base)] reads it. *)
Definition digit_val (c : ascii) : option Z :=
  let n := Z.of_N (N_of_ascii c) in
  if (48 <=? n) && (n <=? 57) then Some (n - 48)
  else if (97 <=? n) && (n <=? 122) then Some (n - 87)
  else if (65 <=? n) && (n <=? 90) then Some (n - 55)
  else None.

(** One character of the output of [bin] and [str]. *)
Definition digit_char (d : Z) : ascii := ascii_of_N (Z.to_N (48 + d)).

(** The digits of [s] in base [base], most significant first, accumulated
    into [acc]; [None] at the first character that is not a digit. *)
Fixpoint parse_digits (base : Z) (acc : Z) (s : pystr) : option Z :=
  match s with
  | [] => Some acc
  | c :: s' =>
      match digit_val c with
      | Some d => if d <? base then parse_digits base (acc * base + d) s'
                  else None
      | None => None
      end
  end.

Fixpoint lstrip (s : pystr) : pystr :=
  match s with
  | c :: s' => if isspace c then lstrip s' else s
  | [] => []
  end.

Definition rstrip (s : pystr) : pystr := reverse (lstrip (reverse s)).

Definition strip (s : pystr) : pystr := rstrip (lstrip s).

(** [s.rstrip(chars)] *)
Fixpoint lstrip_chars (chars : pystr) (s : pystr) : pystr :=
  match s with
  | c :: s' => if bool_decide (c ∈ chars) then lstrip_chars chars s' else s
  | [] => []
  end.

Definition rstrip_chars (chars : pystr) (s : pystr) : pystr :=
  reverse (lstrip_chars chars (reverse s)).

(** The prefix [0b] or [0x] that [int(s, 2)] and [int(s, 16)] accept. *)
Definition skip_prefix (base : Z) (s : pystr) : pystr :=
  match s with
  | c0 :: c :: s' =>
      if bool_decide (c0 = "0")
         && (((base =? 2) && (bool_decide (c = "b") || bool_decide (c = "B")))
             || ((base =? 16)
                 && (bool_decide (c = "x") || bool_decide (c = "X"))))
      then s' else s
  | _ => s
  end.

(** [int(s, base)] for [base] 2, 10 or 16: surrounding whitespace, an
    optional sign (Python 2 also skips whitespace after it), an optional
    base prefix, and one digit at least; [ValueError] for everything else. *)
Definition int (s : pystr) (base : Z) : outcome Z :=
  let s := strip s in
  let '(sign, body) :=
    match s with
    | c :: s' =>
        if bool_decide (c = "-") then (-1, lstrip s')
        else if bool_decide (c = "+") then (1, lstrip s')
        else (1, s)
    | [] => (1, s)
    end in
  match skip_prefix base body with
  | [] => Raise ValueError
  | ds => match parse_digits base 0 ds with
          | Some n => Ret (sign * n)
          | None => Raise ValueError
          end
  end.

(** The digits of [n >= 0] in base [base], least significant first;
    [fuel] bounds the number of digits. *)
Fixpoint digits_rev (base : Z) (fuel : nat) (n : Z) : pystr :=
  match fuel with
  | O => []
  | S fuel' =>
      if n <? base then [digit_char n]
      else digit_char (n mod base) :: digits_rev base fuel' (n / base)
  end.

(** A non-negative [n] has at most [log2 n + 1] digits in any base. *)
Definition digits (base : Z) (n : Z) : pystr :=
  reverse (digits_rev base (S (Z.to_nat (Z.log2 n))) n).

(** [bin(n)] *)
Definition bin (n : Z) : pystr :=
  if n <? 0 then pys "-0b" ++ digits 2 (- n) else pys "0b" ++ digits 2 n.

(** [str(n)] *)
Definition str (n : Z) : pystr :=
  if n <? 0 then "-" :: digits 10 (- n) else digits 10 n.

(** The string that [c * k] builds: a negative count gives the empty
    string. *)
Definition rep (c : ascii) (k : Z) : pystr := replicate (Z.to_nat k) c.

(** The counts that [c * k] accepts: the operator converts its count to an
    index-sized integer, [Py_ssize_t], of 64 bits here. *)
Definition fits_index (k : Z) : bool :=
  (- 2 ^ 63 <=? k) && (k <? 2 ^ 63).

(** [c * k] for a count that the caller chooses: [OverflowError] when the
    count does not fit an index-sized integer, whatever its sign.  Whether
    the machine has the memory for a long string ([MemoryError]) is not part
    of the model: the statements that use [repeat] with a count outside
    [0 .. 32] keep the count small or beyond the index range. *)
Definition repeat (c : ascii) (k : Z) : outcome pystr :=
  if fits_index k then Ret (rep c k) else Raise OverflowError.

(** [len(s)] *)
Definition len (s : pystr) : Z := Z.of_nat (length s).

(** [s.split(sep)] for a separator of one character. *)
Fixpoint split (sep : ascii) (s : pystr) : list pystr :=
  match s with
  | [] => [[]]
  | c :: s' =>
      if bool_decide (c = sep) then [] :: split sep s'
      else match split sep s' with
           | p :: ps => (c :: p) :: ps
           | [] => [[c]]
           end
  end.

(** [sep.join(parts)] *)
Fixpoint join (sep : pystr) (parts : list pystr) : pystr :=
  match parts with
  | [] => []
  | [p] => p
  | p :: ps => p ++ sep ++ join sep ps
  end.

(** [s.split()]: the maximal runs of characters that are not whitespace.
    [cur] is the run being read, reversed. *)
Fixpoint split_ws_go (cur : pystr) (s : pystr) : list pystr :=
  match s with
  | [] => match cur with [] => [] | _ => [reverse cur] end
  | c :: s' =>
      if isspace c
      then match cur with
           | [] => split_ws_go [] s'
           | _ => reverse cur :: split_ws_go [] s'
           end
      else split_ws_go (c :: cur) s'
  end.
Definition split_ws (s : pystr) : list pystr := split_ws_go [] s.

(** [s.upper()] in the C locale. *)
Definition upper_char (c : ascii) : ascii :=
  let n := N_of_ascii c in
  if ((97 <=? n) && (n <=? 122))%N then ascii_of_N (n - 32) else c.
Definition upper (s : pystr) : pystr := upper_char <$> s.

(** [s.splitlines()] of a [str]: lines end at [\n], [\r] or [\r\n], the
    terminators are dropped, and there is no empty last line. [cur] is the
    line being read, reversed. *)
Fixpoint splitlines_go (cur : pystr) (s : pystr) : list pystr :=
  match s with
  | [] => match cur with [] => [] | _ => [reverse cur] end
  | "010" :: s' => reverse cur :: splitlines_go [] s'
  | "013" :: "010" :: s' => reverse cur :: splitlines_go [] s'
  | "013" :: s' => reverse cur :: splitlines_go [] s'
  | c :: s' => splitlines_go (c :: cur) s'
  end.
Definition splitlines (s : pystr) : list pystr := splitlines_go [] s.

(** Iterating over a text file: the lines, each with its [\n]. *)
Fixpoint readlines_go (cur : pystr) (s : pystr) : list pystr :=
  match s with
  | [] => match cur with [] => [] | _ => [reverse cur] end
  | "010" :: s' => reverse ("010" :: cur) :: readlines_go [] s'
  | c :: s' => readlines_go (c :: cur) s'
  end.
Definition readlines (s : pystr) : list pystr := readlines_go [] s.

End Py.

(** ** The IP codec and [mask_ip] (lines 173-225) *)

(** [pad_binary] (lines 224-225).  Its count is [length], 8 or 32 in this
    module, less the length of a string that exists: it always fits an index
    and never exceeds [length], so the repetition cannot fail here. *)
Definition pad_binary (bin_str : pystr) (length : Z) : pystr :=
  Py.rep "0" (length - Py.len bin_str) ++ bin_str.

(** The loop of [ip_to_bin], [bin_str] being the string built so far. *)
Fixpoint ip_to_bin_loop (bin_str : pystr) (parts : list pystr) : outcome pystr :=
  match parts with
  | [] => Ret bin_str
  | byte_int_str :: parts' =>
      do byte_int <- Py.int byte_int_str 10;
      let byte_bin_str := drop 2 (Py.bin byte_int) in
      let byte_bin_str := pad_binary byte_bin_str 8 in
      ip_to_bin_loop (bin_str ++ byte_bin_str) parts'
  end.

Definition ip_to_bin (ip_str : pystr) : outcome pystr :=
  ip_to_bin_loop [] (Py.split "." ip_str).

(** The loop of [bin_to_ip] over [range(0, 32, 8)]. *)
Fixpoint bin_to_ip_loop (ip_bin : pystr) (ip_byte_strs : list pystr)
    (range : list nat) : outcome (list pystr) :=
  match range with
  | [] => Ret ip_byte_strs
  | i :: range' =>
      let byte_bin_str := take 8 (drop i ip_bin) in
      do byte_int <- Py.int byte_bin_str 2;
      let byte_int_str := Py.str byte_int in
      bin_to_ip_loop ip_bin (ip_byte_strs ++ [byte_int_str]) range'
  end.

Definition bin_to_ip (ip_bin : pystr) : outcome pystr :=
  do ip_byte_strs <- bin_to_ip_loop ip_bin [] [0; 8; 16; 24]%nat;
  Ret (Py.join ["."] ip_byte_strs).

Definition int_to_ip (ip_int : Z) : outcome pystr :=
  let ip_bin := drop 2 (Py.bin ip_int) in
  let ip_bin := pad_binary ip_bin 32 in
  bin_to_ip ip_bin.

(** [mask_ip(ip, prefix_len)]; [prefix_len = None] is the call with a single
    string in CIDR notation. *)
Definition mask_ip (ip : pystr) (prefix_len : option Z)
    : outcome (pystr * pystr) :=
  do ip_len <-
    match prefix_len with
    | None =>
        match Py.split "/" ip with
        | [ip'; prefix_len_str] =>
            do prefix_len' <- Py.int prefix_len_str 10;
            Ret (ip', prefix_len')
        | _ => Raise ValueError
        end
    | Some prefix_len' => Ret (ip, prefix_len')
    end;
  let ip := ip_len.1 in
  let prefix_len := ip_len.2 in
  do ip_bin <- ip_to_bin ip;
  do ip_int <- Py.int ip_bin 2;
  do ones <- Py.repeat "1" prefix_len;
  do zeros <- Py.repeat "0" (32 - prefix_len);
  let mask_bin := ones ++ zeros in
  do mask_int <- Py.int mask_bin 2;
  let lower_bound_int := Z.land ip_int mask_int in
  let subnet_int := Z.lxor 4294967295 mask_int in
  let upper_bound_int := lower_bound_int + subnet_int in
  do lower_bound_str <- int_to_ip lower_bound_int;
  do upper_bound_str <- int_to_ip upper_bound_int;
  Ret (lower_bound_str, upper_bound_str).

(** The two conversions of the specification: text to integer is
    [ip_to_bin] followed by [int(_, 2)], as [mask_ip] does it. *)
Definition parseIPv4 (text : pystr) : outcome Z :=
  do ip_bin <- ip_to_bin text;
  Py.int ip_bin 2.

Definition formatIPv4 (addr : Z) : outcome pystr := int_to_ip addr.

(** ** Regular expressions, as far as the module uses them

    The three patterns of [get_wifi_info] start with [^] and are made of
    single characters, greedy repetitions of a character class, one group
    around such a repetition, and [$].  [search] is the backtracking matcher
    of [re.search] for them: a repetition first takes as many characters as
    it can and gives them back one at a time while the rest fails. *)

Module Re.

Inductive item : Type :=
  | One (cls : ascii → bool)
      (* one character of the class *)
  | Many (cls : ascii → bool) (nonempty : bool) (group : bool)
      (* cls* or, with [nonempty], cls+; with [group], inside ( ) *)
  | Eos.
      (* $ without re.MULTILINE: the end, or before a final newline *)

(** [g] is group 1 so far; the result is group 1 of the match. *)
Fixpoint match_here (items : list item) (s : pystr) (g : pystr)
    {struct items} : option pystr :=
  match items with
  | [] => Some g
  | One cls :: items' =>
      match s with
      | c :: s' => if cls c then match_here items' s' g else None
      | [] => None
      end
  | Many cls nonempty group :: items' =>
      (fix many (s : pystr) (taken : pystr) {struct s} : option pystr :=
         let stop :=
           if nonempty && bool_decide (taken = []) then None
           else match_here items' s (if group then reverse taken else g) in
         match s with
         | c :: s' =>
             if cls c
             then match many s' (c :: taken) with
                  | Some r => Some r
                  | None => stop
                  end
             else stop
         | [] => stop
         end) s []
  | Eos :: items' =>
      match s with
      | [] | ["010"] => match_here items' s g
      | _ => None
      end
  end.

(** [re.search(pattern, line)] for a pattern that starts with [^];
    the result is [match.group(1)]. *)
Definition search (pattern : list item) (line : pystr) : option pystr :=
  match_here pattern line [].

Definition chr (x : ascii) : ascii → bool := fun c => bool_decide (c = x).

(** The same letter, in either case ([re.I]). *)
Definition chr_ci (x : ascii) : ascii → bool :=
  fun c => bool_decide (Py.upper_char c = Py.upper_char x).

(** [.] *)
Definition dot : ascii → bool := fun c => negb (bool_decide (c = "010")).

(** [\S] *)
Definition nonspace : ascii → bool := fun c => negb (Py.isspace c).

(** [[a-fA-F0-9:]] *)
Definition hex_colon (c : ascii) : bool :=
  let n := N_of_ascii c in
  (((97 <=? n) && (n <=? 102)) || ((65 <=? n) && (n <=? 70))
   || ((48 <=? n) && (n <=? 57)) || (n =? 58))%N.

Definition lit (s : pystr) : list item := (fun x => One (chr x)) <$> s.
Definition lit_ci (s : pystr) : list item := (fun x => One (chr_ci x)) <$> s.

End Re.

(** The double quote. *)
Definition dquote : ascii := "034".

(** The characters of ['\r\n']. *)
Definition crlf : pystr := ["013"; "010"].

(** [r'^(\S+)\s+\S'] *)
Definition interface_re : list Re.item :=
  [Re.Many Re.nonspace true true; Re.Many Py.isspace true false;
   Re.One Re.nonspace].

(** [r'^.*access point: ([a-fA-F0-9:]+)\s*$'] with [re.I] *)
Definition mac_re : list Re.item :=
  Re.Many Re.dot false false :: Re.lit_ci (pys "access point: ")
  ++ [Re.Many Re.hex_colon true true; Re.Many Py.isspace false false; Re.Eos].

(** [r'^.*SSID:Q(G)Q\s*$'], where Q stands for the double quote and G for
    the greedy repetition of [.] *)
Definition ssid_re : list Re.item :=
  Re.Many Re.dot false false :: Re.lit (pys "SSID:") ++ [Re.One (Re.chr dquote)]
  ++ [Re.Many Re.dot false true; Re.One (Re.chr dquote);
      Re.Many Py.isspace false false; Re.Eos].

(** ** The operating system, as the module sees it *)

Record os_env : Type := {
  (* 'PATH' in os.environ *)
  path_defined : bool;
  (* distutils.spawn.find_executable *)
  find_executable : pystr → option pystr;
  (* subprocess.check_output(argv, stderr=devnull) *)
  check_output : list pystr → outcome pystr;
  (* socket.gethostbyname *)
  gethostbyname : pystr → outcome pystr;
  (* the content of a file opened for reading *)
  read_file : pystr → outcome pystr
}.

(** [not x] for an optional string: [None] and [''] are false. *)
Definition falsy (x : option pystr) : bool :=
  match x with
  | None | Some [] => true
  | Some _ => false
  end.

(** The command to run: its name if it is found on the search path, the
    absolute path [fallback] otherwise. *)
Definition choose_cmd (env : os_env) (cmd fallback : pystr) : pystr :=
  if negb (path_defined env) || falsy (find_executable env cmd)
  then fallback else cmd.

(** [try: m except (OSError, subprocess.CalledProcessError): return default] *)
Definition is_command_failure (e : exn) : bool :=
  match e with
  | OSError | CalledProcessError => true
  | _ => false
  end.

(** ** [get_wifi_info] (lines 10-51) *)

Record wifi_info : Type := WifiInfo {
  wifi_interface : option pystr;
  wifi_ssid : option pystr;
  wifi_mac : option pystr
}.

(** The body of the loop, up to the test of [break]. *)
Definition wifi_step (st : wifi_info) (line : pystr) : wifi_info :=
  let interface :=
    match Re.search interface_re line with
    | Some g => Some g
    | None => wifi_interface st
    end in
  let mac :=
    if falsy (wifi_mac st)
    then match Re.search mac_re line with
         | Some g => Some g
         | None => wifi_mac st
         end
    else wifi_mac st in
  let ssid :=
    if falsy (wifi_ssid st)
    then match Re.search ssid_re line with
         | Some g => Some g
         | None => wifi_ssid st
         end
    else wifi_ssid st in
  WifiInfo interface ssid mac.

(** [ssid is not None and mac is not None] *)
Definition wifi_complete (st : wifi_info) : bool :=
  bool_decide (wifi_ssid st ≠ None) && bool_decide (wifi_mac st ≠ None).

Fixpoint wifi_loop (st : wifi_info) (lines : list pystr) : wifi_info :=
  match lines with
  | [] => st
  | line :: lines' =>
      let st' := wifi_step st line in
      if wifi_complete st' then st' else wifi_loop st' lines'
  end.

(** The parser: lines 17-19 and 37-51. *)
Definition parse_wifi_info (output : pystr) : wifi_info :=
  wifi_loop (WifiInfo None None None) (Py.splitlines output).

Definition get_wifi_info (env : os_env) : outcome wifi_info :=
  let iwconfig_cmd := choose_cmd env (pys "iwconfig") (pys "/sbin/iwconfig") in
  match check_output env [iwconfig_cmd] with
  | Raise e =>
      if is_command_failure e then Ret (WifiInfo None None None) else Raise e
  | Ret output => Ret (parse_wifi_info output)
  end.

(** ** [get_default_route] (lines 54-84) *)

(** The result is [(interface, ip)]. *)
Fixpoint route_loop (lines : list pystr) : option pystr * option pystr :=
  match lines with
  | [] => (None, None)
  | line :: lines' =>
      let fields := Py.split_ws (Py.rstrip_chars crlf line) in
      if Z.of_nat (length fields) <? 7 then route_loop lines'
      else
        if bool_decide (fields !! 0%nat = Some (pys "default"))
           && bool_decide (fields !! 1%nat = Some (pys "via"))
           && bool_decide (fields !! 3%nat = Some (pys "dev"))
        then (fields !! 4%nat, fields !! 2%nat)
        else route_loop lines'
  end.

Definition parse_default_route (output : pystr) : option pystr * option pystr :=
  route_loop (Py.splitlines output).

Definition get_default_route (env : os_env)
    : outcome (option pystr * option pystr) :=
  let ip_cmd := choose_cmd env (pys "ip") (pys "/sbin/ip") in
  match check_output env [ip_cmd; pys "route"; pys "show"] with
  | Raise e => if is_command_failure e then Ret (None, None) else Raise e
  | Ret output => Ret (parse_default_route output)
  end.

(** ** [dig_ip] and [dns_query] (lines 87-115) *)

Definition dig_ip (env : os_env) (domain : pystr) : outcome (option pystr) :=
  let dig_cmd := choose_cmd env (pys "dig") (pys "/usr/bin/dig") in
  match check_output env
          [dig_cmd; pys "+short"; pys "+time=1"; pys "+tries=2"; domain] with
  | Raise e => if is_command_failure e then Ret None else Raise e
  | Ret output =>
      match Py.splitlines output with
      | line :: _ => Ret (Some (Py.strip line))
      | [] => Ret None
      end
  end.

Definition dns_query (env : os_env) (domain : pystr) : outcome (option pystr) :=
  match gethostbyname env domain with
  | Ret ip => Ret (Some ip)
  | Raise SocketError => Ret None
  | Raise e => Raise e
  end.

(** ** [get_arp_table] and [get_mac_from_ip] (lines 118-155) *)

(** A value of an entry: a [str] or an [int]. *)
Inductive pyval : Type :=
  | VStr (s : pystr)
  | VInt (n : Z).

Definition arp_entry (ip : pystr) (hwtype flags : Z) (mac mask interface : pystr)
    : gmap pystr pyval :=
  <[pys "ip" := VStr ip]> (<[pys "hwtype" := VInt hwtype]>
  (<[pys "flags" := VInt flags]> (<[pys "mac" := VStr mac]>
  (<[pys "mask" := VStr mask]> (<[pys "interface" := VStr interface]> ∅))))).

(** [try: m except ValueError: handler] *)
Definition except_ValueError {A} (m : outcome A) (handler : outcome A)
    : outcome A :=
  match m with
  | Raise ValueError => handler
  | _ => m
  end.

(** The loop over the lines of the file; [header] is the flag of line 124. *)
Fixpoint arp_loop (table : gmap pystr (gmap pystr pyval)) (header : bool)
    (lines : list pystr) : outcome (gmap pystr (gmap pystr pyval)) :=
  match lines with
  | [] => Ret table
  | line :: lines' =>
      if header then arp_loop table false lines'
      else
        let fields := Py.split_ws (Py.rstrip_chars crlf line) in
        match fields with
        | [ip; hwtype; flags; mac; mask; interface] =>
            let converted :=
              except_ValueError
                (let mac := Py.upper mac in
                 do hwtype <- Py.int hwtype 16;
                 do flags <- Py.int flags 16;
                 Ret (Some (mac, hwtype, flags)))
                (Ret None) in
            match converted with
            | Ret (Some (mac, hwtype, flags)) =>
                arp_loop
                  (<[ip := arp_entry ip hwtype flags mac mask interface]> table)
                  false lines'
            | Ret None => arp_loop table false lines'
            | Raise e => Raise e
            end
        | _ => arp_loop table false lines'
        end
  end.

Definition get_arp_table (env : os_env) (proc_path : pystr)
    : outcome (gmap pystr (gmap pystr pyval)) :=
  do arp_table <- read_file env proc_path;
  arp_loop ∅ true (Py.readlines arp_table).

Definition get_mac_from_ip (env : os_env) (ip : pystr) : outcome (option pyval) :=
  do arp_table <- get_arp_table env (pys "/proc/net/arp");
  Ret (arp_table !! ip ≫= fun entry => entry !! pys "mac").

(** * Vocabulary of the statements *)

(** The four octets of a 32-bit address, most significant first. *)
Definition octets (addr : Z) : list Z :=
  [addr / 16777216; (addr / 65536) `mod` 256; (addr / 256) `mod` 256;
   addr `mod` 256].

(** A decimal octet: digits only, one at least, and at most 255. *)
Definition decimal_octet (t : pystr) : bool :=
  match Py.parse_digits 10 0 t with
  | Some v => bool_decide (t ≠ []) && (v <=? 255)
  | None => false
  end.

(** A decimal octet as [str] prints it: without a leading zero. *)
Definition canonical_octet (t : pystr) : bool :=
  decimal_octet t
  && (bool_decide (head t ≠ Some "0") || bool_decide (t = ["0"])).

(** A dotted-decimal IPv4 string: four decimal octets separated by dots. *)
Definition dotted_decimal (s : pystr) : bool :=
  match Py.split "." s with
  | [a; b; c; d] =>
      decimal_octet a && decimal_octet b && decimal_octet c && decimal_octet d
  | _ => false
  end.

(** A dotted-decimal string whose octets have no leading zero. *)
Definition canonical_dotted_decimal (s : pystr) : bool :=
  match Py.split "." s with
  | [a; b; c; d] =>
      canonical_octet a && canonical_octet b && canonical_octet c
      && canonical_octet d
  | _ => false
  end.

(** Eight bits per octet. *)
Definition octet_bits (v : Z) : pystr := pad_binary (Py.digits 2 v) 8.

(** [prefix_len] one-bits followed by [32 - prefix_len] zero-bits. *)
Definition netmask (prefix_len : Z) : Z :=
  Z.shiftl (Z.ones prefix_len) (32 - prefix_len).

(** The state of lines 17-19: nothing is known. *)
Definition wifi_none : wifi_info := WifiInfo None None None.

(** The state after the lines [lines] when no [break] happens. *)
Definition wifi_scan (lines : list pystr) : wifi_info :=
  foldl wifi_step wifi_none lines.

(** The name on the last line of [lines] that starts an interface block. *)
Definition last_interface (lines : list pystr) : option pystr :=
  foldl (λ name line,
           match Re.search interface_re line with
           | Some g => Some g
           | None => name
           end) None lines.

(** The end of a line. *)
Definition nl : pystr := ["010"].

(** One wireless interface, associated. *)
Definition iwconfig_one_block : pystr :=
  pys "lo        no wireless extensions." ++ nl ++ nl
  ++ pys "wlan0     IEEE 802.11abgn  ESSID:" ++ [dquote] ++ pys "home"
  ++ [dquote] ++ pys "  " ++ nl
  ++ pys "          Mode:Managed  Frequency:2.437 GHz  Access Point: AA:BB:CC:DD:EE:FF   "
  ++ nl
  ++ pys "          Bit Rate=65 Mb/s   Tx-Power=15 dBm   " ++ nl.

(** [wlan0] has an SSID and no access point, [wlan1] has both. *)
Definition iwconfig_two_blocks : pystr :=
  pys "wlan0     IEEE 802.11abgn  ESSID:" ++ [dquote] ++ pys "home"
  ++ [dquote] ++ pys "  " ++ nl
  ++ pys "          Mode:Managed  Access Point: Not-Associated   " ++ nl ++ nl
  ++ pys "wlan1     IEEE 802.11abgn  ESSID:" ++ [dquote] ++ pys "other"
  ++ [dquote] ++ pys "  " ++ nl
  ++ pys "          Mode:Managed  Access Point: 11:22:33:44:55:66   " ++ nl.

(** The name, the SSID and the access point on three lines. *)
Definition iwconfig_separate_lines : pystr :=
  pys "wlan0     IEEE 802.11abgn" ++ nl
  ++ pys "          SSID:" ++ [dquote] ++ pys "home" ++ [dquote] ++ nl
  ++ pys "          Access Point: AA:BB:CC:DD:EE:FF" ++ nl.

(** No wireless interface is associated. *)
Definition iwconfig_not_associated : pystr :=
  pys "lo        no wireless extensions." ++ nl ++ nl
  ++ pys "wlan0     IEEE 802.11abgn  ESSID:off/any  " ++ nl
  ++ pys "          Mode:Managed  Access Point: Not-Associated   Tx-Power=15 dBm   "
  ++ nl.

(** An SSID is reported, an access point is not. *)
Definition iwconfig_ssid_only : pystr :=
  pys "wlan0     IEEE 802.11abgn  ESSID:" ++ [dquote] ++ pys "home"
  ++ [dquote] ++ pys "  " ++ nl
  ++ pys "          Mode:Managed  Access Point: Not-Associated   " ++ nl.

(** Three blocks with an SSID, the first of them empty, then two access
    points. *)
Definition iwconfig_empty_ssid_first : pystr :=
  pys "wlan0     IEEE 802.11abgn  ESSID:" ++ [dquote; dquote] ++ pys "  " ++ nl
  ++ pys "wlan1     IEEE 802.11abgn  ESSID:" ++ [dquote] ++ pys "home"
  ++ [dquote] ++ pys "  " ++ nl
  ++ pys "wlan2     IEEE 802.11abgn  ESSID:" ++ [dquote] ++ pys "other"
  ++ [dquote] ++ pys "  " ++ nl
  ++ pys "          Mode:Managed  Access Point: AA:AA:AA:AA:AA:AA   " ++ nl
  ++ pys "          Mode:Managed  Access Point: BB:BB:BB:BB:BB:BB   " ++ nl.

(** Two access points before the first SSID. *)
Definition iwconfig_two_access_points : pystr :=
  pys "          Mode:Managed  Access Point: AA:AA:AA:AA:AA:AA   " ++ nl
  ++ pys "          Mode:Managed  Access Point: BB:BB:BB:BB:BB:BB   " ++ nl
  ++ pys "wlan0     IEEE 802.11abgn  ESSID:" ++ [dquote] ++ pys "home"
  ++ [dquote] ++ pys "  " ++ nl.

(** An empty SSID, then an access point, then another SSID. *)
Definition iwconfig_empty_ssid_kept : pystr :=
  pys "wlan0     IEEE 802.11abgn  ESSID:" ++ [dquote; dquote] ++ pys "  " ++ nl
  ++ pys "          Mode:Managed  Access Point: AA:AA:AA:AA:AA:AA   " ++ nl
  ++ pys "wlan1     IEEE 802.11abgn  ESSID:" ++ [dquote] ++ pys "home"
  ++ [dquote] ++ pys "  " ++ nl.

(** A line of [ip route show] that gives the default route. *)
Definition is_default_route (line : pystr) : bool :=
  let fields := Py.split_ws line in
  bool_decide (7 ≤ length fields)%nat
  && bool_decide (fields !! 0%nat = Some (pys "default"))
  && bool_decide (fields !! 1%nat = Some (pys "via"))
  && bool_decide (fields !! 3%nat = Some (pys "dev")).

(** A sample output of [ip route show] with two default routes. *)
Definition ip_route_show : pystr :=
  pys "10.21.160.0/22 dev wlan0 proto kernel scope link src 10.21.160.7" ++ nl
  ++ pys "default via 10.21.160.1 dev wlan0  proto static metric 600" ++ nl
  ++ pys "default via 192.168.0.1 dev eth0  proto static metric 700" ++ nl.

(** What one line of the file contributes: the key and the entry when the
    line has exactly six fields and [hwtype] and [flags] are numerals in
    base 16, nothing otherwise. *)
Definition arp_row (line : pystr) : option (pystr * gmap pystr pyval) :=
  match Py.split_ws line with
  | [ip; hwtype; flags; mac; mask; interface] =>
      match Py.int hwtype 16, Py.int flags 16 with
      | Ret hwtype, Ret flags =>
          Some (ip, arp_entry ip hwtype flags (Py.upper mac) mask interface)
      | _, _ => None
      end
  | _ => None
  end.

(** [table[ip] = entry] for the row of [line], if it has one. *)
Definition arp_put (table : gmap pystr (gmap pystr pyval)) (line : pystr)
    : gmap pystr (gmap pystr pyval) :=
  match arp_row line with
  | Some (ip, entry) => <[ip := entry]> table
  | None => table
  end.

(** [c] is one of the letters [a] to [z]. *)
Definition is_lower (c : ascii) : bool :=
  ((97 <=? N_of_ascii c) && (N_of_ascii c <=? 122))%N.

(** The keys of an entry of the ARP table. *)
Definition arp_keys : list pystr :=
  [pys "ip"; pys "hwtype"; pys "flags"; pys "mac"; pys "mask"; pys "interface"].

(** A sample content of [/proc/net/arp]: the header and one row. *)
Definition proc_net_arp : pystr :=
  pys "IP address       HW type     Flags       HW address            Mask     Device"
  ++ nl ++ pys "10.0.0.5 0x1 0x2 aa:bb:cc:dd:ee:ff * eth0" ++ nl.

(** No command can be run and no name can be resolved. *)
Definition failing_env : os_env :=
  {| path_defined := false;
     find_executable := λ _, None;
     check_output := λ _, Raise OSError;
     gethostbyname := λ _, Raise SocketError;
     read_file := λ _, Raise IOError |}.

(** The number of characters that [ip_to_bin] writes for the part [v]:
    its binary numeral, and 8 at least. *)
Definition part_width (v : Z) : Z := Z.max 8 (Z.log2 v + 1).

(** The integer that [int(_, 2)] reads from the parts [vs] written one after
    the other, each in its own width. *)
Definition parts_value (vs : list Z) : Z :=
  foldl (λ acc v, acc * 2 ^ part_width v + v) 0 vs.

(** The loop of [Re.match_here] for a repetition, with the characters
    taken so far (reversed) made explicit. *)
Fixpoint many_loop (cls : ascii → bool) (nonempty group : bool)
    (items : list Re.item) (g : pystr) (s taken : pystr) {struct s}
    : option pystr :=
  let stop :=
    if nonempty && bool_decide (taken = []) then None
    else Re.match_here items s (if group then reverse taken else g) in
  match s with
  | c :: s' =>
      if cls c
      then match many_loop cls nonempty group items g s' (c :: taken) with
           | Some r => Some r
           | None => stop
           end
      else stop
  | [] => stop
  end.

(** The item is a repetition inside the group. *)
Definition is_group (it : Re.item) : bool :=
  match it with
  | Re.Many _ _ true => true
  | _ => false
  end.

(** One field of [wifi_step]: a value that is [None] or empty is replaced
    by what the pattern captures on the line. *)
Definition keep_first (re : list Re.item) (value : option pystr)
    (line : pystr) : option pystr :=
  if falsy value
  then match Re.search re line with
       | Some g => Some g
       | None => value
       end
  else value.

(** * Properties *)

(** ** Digits: [int], [bin] and [str] are inverse to each other *)

Lemma digit_val_range c d : Py.digit_val c = Some d → 0 ≤ d < 36.
Proof.
  unfold Py.digit_val. intros H.
  repeat case_match; simplify_eq; lia.
Qed.

Lemma digit_val_char d : 0 ≤ d < 10 → Py.digit_val (Py.digit_char d) = Some d.
Proof.
  intros Hd.
  assert (d = 0 ∨ d = 1 ∨ d = 2 ∨ d = 3 ∨ d = 4 ∨ d = 5 ∨ d = 6 ∨ d = 7
          ∨ d = 8 ∨ d = 9) as Hcases by lia.
  destruct_or!; subst d; reflexivity.
Qed.

Lemma digit_char_val c d :
  Py.digit_val c = Some d → d < 10 → Py.digit_char d = c.
Proof.
  unfold Py.digit_val, Py.digit_char. intros H Hd.
  repeat case_match; simplify_eq; try lia.
  replace (48 + (Z.of_N (N_of_ascii c) - 48)) with (Z.of_N (N_of_ascii c)) by lia.
  rewrite N2Z.id. apply ascii_N_embedding.
Qed.

Lemma digit_val_not_space c d : Py.digit_val c = Some d → Py.isspace c = false.
Proof.
  destruct c as [[] [] [] [] [] [] [] []]; vm_compute; congruence.
Qed.

Section Digits.
Variable b : Z.
Hypothesis Hb : 2 ≤ b ≤ 10.

Lemma parse_digits_app acc s1 s2 :
  Py.parse_digits b acc (s1 ++ s2)
  = Py.parse_digits b acc s1 ≫= λ a, Py.parse_digits b a s2.
Proof.
  revert acc. induction s1 as [|c s1 IH]; intros acc; simpl; [done|].
  destruct (Py.digit_val c) as [d|]; [|done].
  destruct (d <? b); [apply IH|done].
Qed.

Lemma parse_digits_acc acc s :
  Py.parse_digits b acc s
  = (λ v, acc * b ^ Z.of_nat (length s) + v) <$> Py.parse_digits b 0 s.
Proof.
  revert acc. induction s as [|c s IH]; intros acc.
  - simpl. f_equal. lia.
  - cbn [Py.parse_digits length].
    destruct (Py.digit_val c) as [d|]; [|done].
    destruct (d <? b); [|done].
    rewrite IH, (IH (0 * b + d)).
    destruct (Py.parse_digits b 0 s) as [v|]; [|done].
    simpl. f_equal. rewrite Nat2Z.inj_succ, Z.pow_succ_r by lia. lia.
Qed.

Lemma parse_digits_bound s v :
  Py.parse_digits b 0 s = Some v → 0 ≤ v < b ^ Z.of_nat (length s).
Proof.
  revert v. induction s as [|c s IH] using rev_ind; intros v.
  - simpl. intros [= <-]. lia.
  - rewrite parse_digits_app, length_app, Nat2Z.inj_add, Z.pow_add_r by lia.
    destruct (Py.parse_digits b 0 s) as [a|]; [|done].
    specialize (IH a eq_refl). simpl.
    destruct (Py.digit_val c) as [d|] eqn:Hd; [|done].
    destruct (d <? b) eqn:Hlt; [|done]. intros [= <-].
    apply digit_val_range in Hd. apply Z.ltb_lt in Hlt.
    change (Z.of_nat 1) with 1. rewrite Z.pow_1_r. nia.
Qed.

Lemma digits_rev_parse fuel n acc :
  0 ≤ n < b ^ Z.of_nat fuel →
  Py.parse_digits b acc (reverse (Py.digits_rev b fuel n))
  = Some (acc * b ^ Z.of_nat (length (Py.digits_rev b fuel n)) + n).
Proof.
  revert n acc. induction fuel as [|fuel IH]; intros n acc Hn.
  - simpl in *. f_equal. lia.
  - cbn [Py.digits_rev]. destruct (n <? b) eqn:Hlt.
    + apply Z.ltb_lt in Hlt. cbn.
      rewrite digit_val_char by lia.
      assert ((n <? b) = true) as -> by lia. f_equal. lia.
    + apply Z.ltb_ge in Hlt.
      rewrite reverse_cons, parse_digits_app.
      rewrite Nat2Z.inj_succ, Z.pow_succ_r in Hn by lia.
      rewrite IH by (split; [apply Z.div_pos; lia|apply Z.div_lt_upper_bound; lia]).
      cbn [mbind option_bind Py.parse_digits length].
      pose proof (Z.mod_pos_bound n b ltac:(lia)).
      rewrite digit_val_char by lia.
      assert ((n `mod` b <? b) = true) as -> by lia.
      f_equal. rewrite Nat2Z.inj_succ, Z.pow_succ_r by lia.
      pose proof (Z.div_mod n b ltac:(lia)). lia.
Qed.

Lemma digits_rev_fuel f1 f2 n :
  0 ≤ n → n < b ^ Z.of_nat (S f1) → n < b ^ Z.of_nat (S f2) →
  Py.digits_rev b (S f1) n = Py.digits_rev b (S f2) n.
Proof.
  revert f2 n. induction f1 as [|f1 IH]; intros f2 n Hn H1 H2;
    cbn [Py.digits_rev]; destruct (n <? b) eqn:Hlt; try done;
    apply Z.ltb_ge in Hlt.
  - simpl in H1. lia.
  - destruct f2 as [|f2]; [simpl in H2; lia|].
    rewrite Nat2Z.inj_succ, Z.pow_succ_r in H1, H2 by lia.
    f_equal. apply IH; [apply Z.div_pos; lia|..];
      apply Z.div_lt_upper_bound; lia.
Qed.

Lemma digits_fuel_ok n :
  0 ≤ n → n < b ^ Z.of_nat (S (Z.to_nat (Z.log2 n))).
Proof.
  intros Hn. pose proof (Z.log2_nonneg n).
  rewrite Nat2Z.inj_succ, Z2Nat.id by done.
  destruct (decide (n = 0)) as [->|].
  - apply Z.pow_pos_nonneg; simpl; lia.
  - apply Z.lt_le_trans with (2 ^ Z.succ (Z.log2 n)).
    + apply Z.log2_spec. lia.
    + apply Z.pow_le_mono_l. lia.
Qed.

Lemma digits_small n : 0 ≤ n < b → Py.digits b n = [Py.digit_char n].
Proof.
  intros Hn. unfold Py.digits. cbn [Py.digits_rev].
  by assert ((n <? b) = true) as -> by lia.
Qed.

Lemma digits_step n :
  b ≤ n → Py.digits b n = Py.digits b (n / b) ++ [Py.digit_char (n `mod` b)].
Proof.
  intros Hn. unfold Py.digits at 1. cbn [Py.digits_rev].
  assert ((n <? b) = false) as -> by lia.
  rewrite reverse_cons. f_equal. unfold Py.digits. f_equal.
  assert (0 ≤ n / b) by (apply Z.div_pos; lia).
  assert (0 < Z.log2 n) by (apply Z.log2_pos; lia).
  destruct (Z.to_nat (Z.log2 n)) as [|f] eqn:Hf; [lia|].
  assert (0 ≤ n) as Hfuel%digits_fuel_ok by lia.
  rewrite Hf, Nat2Z.inj_succ, Z.pow_succ_r in Hfuel by lia.
  apply digits_rev_fuel; [done| |by apply digits_fuel_ok].
  apply Z.div_lt_upper_bound; lia.
Qed.

Lemma parse_digits_digits n :
  0 ≤ n → Py.parse_digits b 0 (Py.digits b n) = Some n.
Proof.
  intros Hn. unfold Py.digits.
  rewrite digits_rev_parse by (split; [done|by apply digits_fuel_ok]).
  f_equal; lia.
Qed.

(** A numeral without leading zeros is what [str] or [bin] prints. *)
Lemma digits_parse t v :
  Py.parse_digits b 0 t = Some v → t ≠ [] →
  (head t ≠ Some "0" ∨ t = ["0"]) →
  Py.digits b v = t.
Proof.
  revert v. induction t as [|c t IH] using rev_ind; intros v Hp Hne Hz; [done|].
  rewrite parse_digits_app in Hp.
  destruct (Py.parse_digits b 0 t) as [a|] eqn:Ha; [|done]. simpl in Hp.
  destruct (Py.digit_val c) as [d|] eqn:Hd; [|done].
  destruct (d <? b) eqn:Hlt; [|done]. apply Z.ltb_lt in Hlt.
  injection Hp as <-. pose proof (digit_val_range _ _ Hd).
  destruct t as [|c0 t].
  - simpl in Ha. injection Ha as <-.
    rewrite digits_small by lia. simpl. f_equal.
    apply digit_char_val; [done|lia].
  - assert (c0 ≠ "0") as Hc0.
    { destruct Hz as [Hz|Hz]; [intros ->; by apply Hz|].
      by destruct t; simplify_eq/=. }
    assert (0 < a).
    { change (c0 :: t) with ([c0] ++ t) in Ha.
      rewrite parse_digits_app in Ha. simpl in Ha.
      destruct (Py.digit_val c0) as [d0|] eqn:Hd0; [|done].
      destruct (d0 <? b) eqn:Hlt0; [|done]. simpl in Ha.
      rewrite parse_digits_acc in Ha.
      destruct (Py.parse_digits b 0 t) as [r|] eqn:Hr; [|done].
      injection Ha as <-. apply parse_digits_bound in Hr.
      pose proof (digit_val_range _ _ Hd0).
      assert (d0 ≠ 0).
      { intros ->. apply Hc0. symmetry.
        apply (digit_char_val c0 0); [done|lia]. }
      assert (0 < b ^ Z.of_nat (length t)) by (apply Z.pow_pos_nonneg; lia).
      nia. }
    rewrite digits_step by nia.
    replace ((a * b + d) / b) with a by (apply Z.div_unique with d; lia).
    replace ((a * b + d) `mod` b) with d by (apply Z.mod_unique with a; lia).
    rewrite IH; [|done|done|left; simpl; congruence].
    f_equal. f_equal. apply digit_char_val; [done|lia].
Qed.

Lemma digits_length_le n (L : nat) :
  0 ≤ n < b ^ Z.of_nat L → (length (Py.digits b n) ≤ Nat.max 1 L)%nat.
Proof.
  revert n. induction L as [|L IH]; intros n Hn.
  - rewrite digits_small by (simpl in Hn; lia). simpl. lia.
  - destruct (decide (n < b)).
    + rewrite digits_small by lia. simpl. lia.
    + rewrite digits_step, length_app by lia. simpl.
      rewrite Nat2Z.inj_succ, Z.pow_succ_r in Hn by lia.
      assert (0 ≤ n / b < b ^ Z.of_nat L) as HL.
      { split; [apply Z.div_pos; lia|apply Z.div_lt_upper_bound; lia]. }
      specialize (IH _ HL).
      destruct L; [simpl in HL; assert (n / b = 0) by lia;
                   apply Z.div_small_iff in H; lia|lia].
Qed.

End Digits.

(** A string of digits, as [int] reads it. *)
Lemma parse_digits_chars b acc t v :
  Py.parse_digits b acc t = Some v →
  Forall (λ c, ∃ d, Py.digit_val c = Some d ∧ d < b) t.
Proof.
  revert acc. induction t as [|c t IH]; intros acc H; [constructor|].
  simpl in H. destruct (Py.digit_val c) as [d|] eqn:Hd; [|done].
  destruct (d <? b) eqn:Hlt; [|done]. apply Z.ltb_lt in Hlt.
  constructor; eauto.
Qed.

Lemma lstrip_id t : Forall (λ c, Py.isspace c = false) t → Py.lstrip t = t.
Proof. intros [|c r Hc _]; [done|]. simpl. by rewrite Hc. Qed.

Lemma strip_id t : Forall (λ c, Py.isspace c = false) t → Py.strip t = t.
Proof.
  intros H. unfold Py.strip, Py.rstrip.
  rewrite (lstrip_id t), (lstrip_id (reverse t)), reverse_involutive;
    [done|by apply Forall_reverse|done].
Qed.

Lemma int_of_digits b t v :
  2 ≤ b ≤ 10 → Py.parse_digits b 0 t = Some v → t ≠ [] → Py.int t b = Ret v.
Proof.
  intros Hb Hp Hne. pose proof (parse_digits_chars _ _ _ _ Hp) as Hch.
  unfold Py.int. rewrite strip_id.
  2:{ eapply Forall_impl; [exact Hch|].
      intros c (d & Hd & _). by eapply digit_val_not_space. }
  destruct t as [|c0 t]; [done|].
  apply Forall_cons in Hch as [(d0 & Hd0 & Hlt0) Hch].
  assert (∀ x, Py.digit_val x = None → c0 ≠ x) as Hc0 by (intros x Hx ->; congruence).
  rewrite (bool_decide_eq_false_2 (c0 = "-")), (bool_decide_eq_false_2 (c0 = "+"))
    by (by apply Hc0).
  assert (Py.skip_prefix b (c0 :: t) = c0 :: t) as ->.
  { destruct t as [|c1 t]; [done|]. simpl.
    apply Forall_cons in Hch as [(d1 & Hd1 & Hlt1) _].
    assert (∀ x d, Py.digit_val x = Some d → 10 ≤ d → c1 ≠ x) as Hc1.
    { intros x d Hx Hd ->. simplify_eq. lia. }
    rewrite (bool_decide_eq_false_2 (c1 = "b")), (bool_decide_eq_false_2 (c1 = "B")),
      (bool_decide_eq_false_2 (c1 = "x")), (bool_decide_eq_false_2 (c1 = "X")).
    - by rewrite !andb_false_r.
    - by apply (Hc1 _ 33).
    - by apply (Hc1 _ 33).
    - by apply (Hc1 _ 11).
    - by apply (Hc1 _ 11). }
  rewrite Hp. f_equal. lia.
Qed.

Lemma bin_drop n : 0 ≤ n → drop 2 (Py.bin n) = Py.digits 2 n.
Proof. intros Hn. unfold Py.bin. by assert ((n <? 0) = false) as -> by lia. Qed.

Lemma str_nonneg n : 0 ≤ n → Py.str n = Py.digits 10 n.
Proof. intros Hn. unfold Py.str. by assert ((n <? 0) = false) as -> by lia. Qed.

(** ** Strings of bits *)

Lemma parse_digits_zeros b acc k t :
  2 ≤ b →
  Py.parse_digits b acc (replicate k "0" ++ t)
  = Py.parse_digits b (acc * b ^ Z.of_nat k) t.
Proof.
  intros Hb. revert acc. induction k as [|k IH]; intros acc.
  - simpl. f_equal. lia.
  - cbn [replicate app Py.parse_digits]. change (Py.digit_val "0") with (Some 0).
    cbv iota beta. assert ((0 <? b) = true) as -> by lia.
    rewrite IH. f_equal. rewrite Nat2Z.inj_succ, Z.pow_succ_r by lia. lia.
Qed.

Lemma parse_digits_ones k :
  Py.parse_digits 2 0 (replicate k "1") = Some (2 ^ Z.of_nat k - 1).
Proof.
  induction k as [|k IH]; [done|].
  rewrite replicate_S_end, parse_digits_app, IH. simpl. f_equal.
  rewrite Nat2Z.inj_succ, Z.pow_succ_r by lia. lia.
Qed.

Lemma parse_digits_split b w1 w2 v :
  2 ≤ b ≤ 10 →
  Py.parse_digits b 0 (w1 ++ w2) = Some v →
  ∃ v1 v2, Py.parse_digits b 0 w1 = Some v1 ∧ Py.parse_digits b 0 w2 = Some v2
           ∧ v = v1 * b ^ Z.of_nat (length w2) + v2.
Proof.
  intros Hb. rewrite parse_digits_app.
  destruct (Py.parse_digits b 0 w1) as [v1|]; [|done]. simpl.
  rewrite parse_digits_acc.
  destruct (Py.parse_digits b 0 w2) as [v2|]; [|done]. simpl.
  intros [= <-]. eauto.
Qed.

Lemma parse_digits_join b w1 w2 v1 v2 :
  Py.parse_digits b 0 w1 = Some v1 → Py.parse_digits b 0 w2 = Some v2 →
  Py.parse_digits b 0 (w1 ++ w2) = Some (v1 * b ^ Z.of_nat (length w2) + v2).
Proof.
  intros H1 H2. rewrite parse_digits_app, H1. simpl.
  by rewrite parse_digits_acc, H2.
Qed.

(** [bin] padded to [L] bits has [L] bits when the number fits. *)
Lemma pad_binary_digits n (L : nat) :
  0 ≤ n < 2 ^ Z.of_nat L → (1 ≤ L)%nat →
  length (pad_binary (Py.digits 2 n) (Z.of_nat L)) = L
  ∧ Py.parse_digits 2 0 (pad_binary (Py.digits 2 n) (Z.of_nat L)) = Some n.
Proof.
  intros Hn HL. pose proof (digits_length_le 2 ltac:(lia) n L Hn).
  unfold pad_binary, Py.len, Py.rep. split.
  - rewrite length_app, length_replicate. lia.
  - rewrite parse_digits_zeros by lia. simpl.
    apply parse_digits_digits; lia.
Qed.

(** ** The IP codec *)

Lemma split_nonempty sep s : Py.split sep s ≠ [].
Proof.
  destruct s as [|c s]; simpl; [done|].
  destruct (bool_decide (c = sep)); [done|]. by destruct (Py.split sep s).
Qed.

Lemma join_split sep s : Py.join [sep] (Py.split sep s) = s.
Proof.
  induction s as [|c s IH]; [done|]. simpl.
  pose proof (split_nonempty sep s) as Hne.
  destruct (bool_decide_reflect (c = sep)) as [->|Hc].
  - destruct (Py.split sep s) as [|p ps]; [done|].
    change (Py.join [sep] ([] :: p :: ps)) with (sep :: Py.join [sep] (p :: ps)).
    by rewrite IH.
  - destruct (Py.split sep s) as [|p ps]; [done|].
    rewrite <- IH. by destruct ps.
Qed.

Lemma decimal_octet_spec t :
  decimal_octet t = true →
  ∃ v, 0 ≤ v ≤ 255 ∧ Py.int t 10 = Ret v
       ∧ (canonical_octet t = true → Py.str v = t).
Proof.
  unfold canonical_octet, decimal_octet.
  destruct (Py.parse_digits 10 0 t) as [v|] eqn:Hp; [|done].
  rewrite !andb_true_iff, !bool_decide_eq_true, Z.leb_le.
  intros [Hne Hv]. pose proof (parse_digits_bound 10 ltac:(lia) _ _ Hp).
  exists v. split_and!; [lia|lia|by apply int_of_digits|].
  rewrite andb_true_iff, orb_true_iff, !bool_decide_eq_true. intros [_ Hz].
  rewrite str_nonneg by lia. by apply digits_parse.
Qed.

Lemma canonical_dotted_decimal_dotted s :
  canonical_dotted_decimal s = true → dotted_decimal s = true.
Proof.
  unfold canonical_dotted_decimal, dotted_decimal, canonical_octet.
  repeat case_match; try done. rewrite !andb_true_iff.
  by intros [[[[? _] [? _]] [? _]] [? _]].
Qed.

Lemma ip_to_bin_loop_ints bin_str parts vs :
  Forall2 (λ t v, Py.int t 10 = Ret v) parts vs →
  ip_to_bin_loop bin_str parts
  = Ret (bin_str ++ concat ((λ v, pad_binary (drop 2 (Py.bin v)) 8) <$> vs)).
Proof.
  intros H. revert bin_str.
  induction H as [|t v parts vs Ht _ IH]; intros bin_str; simpl.
  - by rewrite app_nil_r.
  - rewrite Ht. simpl. by rewrite IH, <- app_assoc.
Qed.

Lemma ip_to_bin_loop_raise bin_str parts e :
  ip_to_bin_loop bin_str parts = Raise e →
  e = ValueError ∧ ∃ t, t ∈ parts ∧ Py.int t 10 = Raise ValueError.
Proof.
  revert bin_str. induction parts as [|t parts IH]; intros bin_str; simpl; [done|].
  destruct (Py.int t 10) as [v|e'] eqn:Ht; simpl.
  - intros (-> & t' & Hin & Ht')%IH. split; [done|].
    exists t'. split; [by right|done].
  - intros [= ->].
    assert (e = ValueError) as ->.
    { unfold Py.int in Ht. repeat case_match; simplify_eq; done. }
    split; [done|]. exists t. split; [by left|done].
Qed.

Lemma octet_bits_spec v :
  0 ≤ v ≤ 255 →
  length (octet_bits v) = 8%nat ∧ Py.parse_digits 2 0 (octet_bits v) = Some v.
Proof. intros Hv. apply (pad_binary_digits v 8); simpl; lia. Qed.

Lemma bin_to_ip_chunks w1 w2 w3 w4 rest v1 v2 v3 v4 :
  length w1 = 8%nat → length w2 = 8%nat → length w3 = 8%nat → length w4 = 8%nat →
  Py.parse_digits 2 0 w1 = Some v1 → Py.parse_digits 2 0 w2 = Some v2 →
  Py.parse_digits 2 0 w3 = Some v3 → Py.parse_digits 2 0 w4 = Some v4 →
  bin_to_ip (w1 ++ w2 ++ w3 ++ w4 ++ rest)
  = Ret (Py.join ["."] [Py.str v1; Py.str v2; Py.str v3; Py.str v4]).
Proof.
  intros L1 L2 L3 L4 P1 P2 P3 P4. unfold bin_to_ip. cbn [bin_to_ip_loop].
  assert (∀ w v, length w = 8%nat → Py.parse_digits 2 0 w = Some v →
                 Py.int w 2 = Ret v) as Hint.
  { intros w v Hl Hp. apply int_of_digits; [lia|done|by destruct w]. }
  assert (drop 8 (w1 ++ w2 ++ w3 ++ w4 ++ rest) = w2 ++ w3 ++ w4 ++ rest) as D8
    by (by apply drop_app_length').
  assert (drop 16 (w1 ++ w2 ++ w3 ++ w4 ++ rest) = w3 ++ w4 ++ rest) as D16.
  { change 16%nat with (8 + 8)%nat. rewrite <- drop_drop, D8.
    by apply drop_app_length'. }
  assert (drop 24 (w1 ++ w2 ++ w3 ++ w4 ++ rest) = w4 ++ rest) as D24.
  { change 24%nat with (16 + 8)%nat. rewrite <- drop_drop, D16.
    by apply drop_app_length'. }
  rewrite drop_0, D8, D16, D24, !take_app_length' by done.
  by rewrite (Hint _ _ L1 P1), (Hint _ _ L2 P2), (Hint _ _ L3 P3),
    (Hint _ _ L4 P4).
Qed.

Lemma chunks_of_32 (w : pystr) :
  (32 ≤ length w)%nat →
  ∃ w1 w2 w3 w4 rest, w = w1 ++ w2 ++ w3 ++ w4 ++ rest
    ∧ length w1 = 8%nat ∧ length w2 = 8%nat ∧ length w3 = 8%nat
    ∧ length w4 = 8%nat ∧ length rest = (length w - 32)%nat.
Proof.
  intros Hw.
  exists (take 8 w), (take 8 (drop 8 w)), (take 8 (drop 16 w)),
    (take 8 (drop 24 w)), (drop 32 w).
  split_and!.
  - rewrite <- (take_drop 8 w) at 1. f_equal.
    rewrite <- (take_drop 8 (drop 8 w)) at 1. f_equal.
    rewrite drop_drop. change (8 + 8)%nat with 16%nat.
    rewrite <- (take_drop 8 (drop 16 w)) at 1. f_equal.
    rewrite drop_drop. change (16 + 8)%nat with 24%nat.
    rewrite <- (take_drop 8 (drop 24 w)) at 1. f_equal.
    by rewrite drop_drop.
  - rewrite length_take. lia.
  - rewrite length_take, length_drop. lia.
  - rewrite length_take, length_drop. lia.
  - rewrite length_take, length_drop. lia.
  - rewrite length_drop. lia.
Qed.

(** [bin_to_ip] reads the first 32 bits of any longer string of bits. *)
Lemma bin_to_ip_total w v :
  Py.parse_digits 2 0 w = Some v → (32 ≤ length w)%nat →
  ∃ s, bin_to_ip w = Ret s.
Proof.
  intros Hp Hlen.
  destruct (chunks_of_32 _ Hlen)
    as (w1 & w2 & w3 & w4 & rest & -> & L1 & L2 & L3 & L4 & _).
  apply parse_digits_split in Hp as (v1 & r1 & P1 & Hp & _); [|lia].
  apply parse_digits_split in Hp as (v2 & r2 & P2 & Hp & _); [|lia].
  apply parse_digits_split in Hp as (v3 & r3 & P3 & Hp & _); [|lia].
  apply parse_digits_split in Hp as (v4 & r4 & P4 & Hp & _); [|lia].
  eexists. by apply bin_to_ip_chunks.
Qed.

Lemma int_to_ip_total n : 0 ≤ n → ∃ s, int_to_ip n = Ret s.
Proof.
  intros Hn. unfold int_to_ip. rewrite bin_drop by lia.
  apply (bin_to_ip_total _ n).
  - unfold pad_binary, Py.rep. rewrite parse_digits_zeros by lia. simpl.
    by apply parse_digits_digits.
  - unfold pad_binary, Py.rep, Py.len.
    rewrite length_app, length_replicate. lia.
Qed.

(** [int_to_ip] prints the four octets of a 32-bit address. *)
Lemma int_to_ip_spec n :
  0 ≤ n < 4294967296 →
  int_to_ip n = Ret (Py.join ["."] (Py.str <$> octets n)).
Proof.
  intros Hn. unfold int_to_ip. rewrite bin_drop by lia.
  destruct (pad_binary_digits n 32) as [Hlen Hp]; [simpl; lia|lia|].
  change (Z.of_nat 32) with 32 in *.
  destruct (chunks_of_32 _ (Nat.eq_le_incl _ _ (eq_sym Hlen)))
    as (w1 & w2 & w3 & w4 & rest & Hw & L1 & L2 & L3 & L4 & Lr).
  rewrite Hlen in Lr. destruct rest; [|done].
  rewrite Hw in Hp |- *.
  apply parse_digits_split in Hp as (v1 & r1 & P1 & Hp & E1); [|lia].
  apply parse_digits_split in Hp as (v2 & r2 & P2 & Hp & E2); [|lia].
  apply parse_digits_split in Hp as (v3 & r3 & P3 & Hp & E3); [|lia].
  apply parse_digits_split in Hp as (v4 & r4 & P4 & Hp & E4); [|lia].
  simpl in Hp. injection Hp as <-.
  rewrite !length_app, L2, L3, L4 in E1. rewrite !length_app, L3, L4 in E2.
  rewrite !length_app, L4 in E3. simpl in E1, E2, E3, E4.
  pose proof (parse_digits_bound 2 ltac:(lia) _ _ P1) as B1.
  pose proof (parse_digits_bound 2 ltac:(lia) _ _ P2) as B2.
  pose proof (parse_digits_bound 2 ltac:(lia) _ _ P3) as B3.
  pose proof (parse_digits_bound 2 ltac:(lia) _ _ P4) as B4.
  rewrite L1 in B1. rewrite L2 in B2. rewrite L3 in B3. rewrite L4 in B4.
  change (2 ^ Z.of_nat 8) with 256 in *.
  change (2 ^ Z.of_nat 16) with 65536 in *.
  change (2 ^ Z.of_nat 24) with 16777216 in *.
  change (2 ^ Z.of_nat 0) with 1 in *.
  rewrite (bin_to_ip_chunks _ _ _ _ _ _ _ _ _ L1 L2 L3 L4 P1 P2 P3 P4).
  unfold octets. cbn [fmap list_fmap].
  assert (n / 16777216 = v1) as ->
    by (symmetry; apply Z.div_unique_pos with (r := r1); lia).
  assert ((n / 65536) `mod` 256 = v2) as ->.
  { replace (n / 65536) with (v1 * 256 + v2)
      by (apply Z.div_unique_pos with (r := r2); lia).
    symmetry. apply Z.mod_unique_pos with (q := v1); lia. }
  assert ((n / 256) `mod` 256 = v3) as ->.
  { replace (n / 256) with ((v1 * 256 + v2) * 256 + v3)
      by (apply Z.div_unique_pos with (r := r3); lia).
    symmetry. apply Z.mod_unique_pos with (q := v1 * 256 + v2); lia. }
  assert (n `mod` 256 = v4) as ->.
  { symmetry. apply Z.mod_unique_pos with (q := (v1 * 256 + v2) * 256 + v3); lia. }
  done.
Qed.

Lemma octets_combine v1 v2 v3 v4 :
  0 ≤ v1 ≤ 255 → 0 ≤ v2 ≤ 255 → 0 ≤ v3 ≤ 255 → 0 ≤ v4 ≤ 255 →
  octets (((v1 * 256 + v2) * 256 + v3) * 256 + v4) = [v1; v2; v3; v4].
Proof.
  intros H1 H2 H3 H4. unfold octets.
  assert ((((v1 * 256 + v2) * 256 + v3) * 256 + v4) / 16777216 = v1) as ->
    by (symmetry; apply Z.div_unique_pos with (r := (v2 * 256 + v3) * 256 + v4); lia).
  replace ((((v1 * 256 + v2) * 256 + v3) * 256 + v4) / 65536)
    with (v1 * 256 + v2)
    by (apply Z.div_unique_pos with (r := v3 * 256 + v4); lia).
  replace ((((v1 * 256 + v2) * 256 + v3) * 256 + v4) / 256)
    with ((v1 * 256 + v2) * 256 + v3)
    by (apply Z.div_unique_pos with (r := v4); lia).
  assert ((v1 * 256 + v2) `mod` 256 = v2) as ->
    by (symmetry; apply Z.mod_unique_pos with (q := v1); lia).
  assert (((v1 * 256 + v2) * 256 + v3) `mod` 256 = v3) as ->
    by (symmetry; apply Z.mod_unique_pos with (q := v1 * 256 + v2); lia).
  assert ((((v1 * 256 + v2) * 256 + v3) * 256 + v4) `mod` 256 = v4) as ->
    by (symmetry;
        apply Z.mod_unique_pos with (q := (v1 * 256 + v2) * 256 + v3); lia).
  done.
Qed.

(** What [ip_to_bin] and [int(_, 2)] make of a dotted-decimal string. *)
Lemma parseIPv4_dotted s :
  dotted_decimal s = true →
  ∃ v1 v2 v3 v4,
    (0 ≤ v1 ≤ 255 ∧ 0 ≤ v2 ≤ 255 ∧ 0 ≤ v3 ≤ 255 ∧ 0 ≤ v4 ≤ 255)
    ∧ (canonical_dotted_decimal s = true →
       s = Py.join ["."] [Py.str v1; Py.str v2; Py.str v3; Py.str v4])
    ∧ ip_to_bin s
      = Ret (octet_bits v1 ++ octet_bits v2 ++ octet_bits v3 ++ octet_bits v4)
    ∧ parseIPv4 s = Ret (((v1 * 256 + v2) * 256 + v3) * 256 + v4).
Proof.
  unfold canonical_dotted_decimal, dotted_decimal, parseIPv4, ip_to_bin.
  intros H. pose proof (join_split "." s) as Hs.
  destruct (Py.split "." s) as [|a [|b [|c [|d [|? ?]]]]]; try done.
  rewrite !andb_true_iff in H. destruct H as [[[Ha Hb] Hc] Hd].
  apply decimal_octet_spec in Ha as (v1 & B1 & I1 & S1).
  apply decimal_octet_spec in Hb as (v2 & B2 & I2 & S2).
  apply decimal_octet_spec in Hc as (v3 & B3 & I3 & S3).
  apply decimal_octet_spec in Hd as (v4 & B4 & I4 & S4).
  exists v1, v2, v3, v4.
  assert (ip_to_bin_loop [] [a; b; c; d]
          = Ret (octet_bits v1 ++ octet_bits v2 ++ octet_bits v3 ++ octet_bits v4))
    as Hbin.
  { rewrite (ip_to_bin_loop_ints [] [a; b; c; d] [v1; v2; v3; v4])
      by (repeat constructor; done).
    cbn [fmap list_fmap concat app]. rewrite !bin_drop by lia.
    by rewrite app_nil_r. }
  split; [done|]. split.
  { rewrite !andb_true_iff. intros [[[Ha Hb] Hc] Hd].
    by rewrite S1, S2, S3, S4. }
  split; [done|]. rewrite Hbin. cbn [bind].
  destruct (octet_bits_spec v1 B1) as [L1 P1].
  destruct (octet_bits_spec v2 B2) as [L2 P2].
  destruct (octet_bits_spec v3 B3) as [L3 P3].
  destruct (octet_bits_spec v4 B4) as [L4 P4].
  apply int_of_digits; [lia| |by destruct (octet_bits v1)].
  rewrite (parse_digits_join 2 _ _ _ _ P1
             (parse_digits_join 2 _ _ _ _ P2 (parse_digits_join 2 _ _ _ _ P3 P4))).
  f_equal. rewrite !length_app, L2, L3, L4. simpl. lia.
Qed.

(** ** The netmask of [mask_ip] *)

Lemma mask_bin_int p :
  Py.int (Py.rep "1" p ++ Py.rep "0" (32 - p)) 2
  = Ret ((2 ^ Z.max p 0 - 1) * 2 ^ Z.max (32 - p) 0).
Proof.
  unfold Py.rep. apply int_of_digits; [lia| |].
  - rewrite (parse_digits_join 2 _ _ _ 0 (parse_digits_ones _)).
    + rewrite length_replicate.
      replace (Z.of_nat (Z.to_nat p)) with (Z.max p 0) by lia.
      replace (Z.of_nat (Z.to_nat (32 - p))) with (Z.max (32 - p) 0) by lia.
      f_equal. lia.
    + rewrite <- (app_nil_r (replicate _ _)), parse_digits_zeros by lia. done.
  - intros H%(f_equal length).
    rewrite length_app, !length_replicate in H. simpl in H. lia.
Qed.

Lemma netmask_value p :
  0 ≤ p ≤ 32 → netmask p = (2 ^ Z.max p 0 - 1) * 2 ^ Z.max (32 - p) 0.
Proof.
  intros Hp. unfold netmask.
  rewrite Z.shiftl_mul_pow2, Z.ones_equiv, !Z.max_l by lia. lia.
Qed.

Lemma netmask_testbit p i :
  0 ≤ p ≤ 32 → 0 ≤ i →
  Z.testbit (netmask p) i = (32 - p <=? i) && (i <? 32).
Proof.
  intros Hp Hi. unfold netmask.
  rewrite Z.shiftl_spec, Z.testbit_ones by lia.
  destruct (Z.leb_spec 0 (i - (32 - p))), (Z.ltb_spec (i - (32 - p)) p),
    (Z.leb_spec (32 - p) i), (Z.ltb_spec i 32); simpl; lia.
Qed.

Lemma below_2_32 x :
  0 ≤ x → (∀ i, 32 ≤ i → Z.testbit x i = false) → x < 4294967296.
Proof.
  intros Hx Hhigh. assert (x = x `mod` 2 ^ 32) as ->.
  { apply Z.bits_inj'. intros i Hi. destruct (decide (i < 32)).
    - by rewrite Z.mod_pow2_bits_low.
    - rewrite Z.mod_pow2_bits_high by lia. apply Hhigh. lia. }
  apply Z.mod_pos_bound. done.
Qed.

(** The code adds the complemented mask; no carry occurs, so the sum is the
    bitwise or. *)
Lemma mask_ip_bounds addr p :
  0 ≤ addr → 0 ≤ p ≤ 32 →
  let mask := netmask p in
  let lower := Z.land addr mask in
  let subnet := Z.lxor 4294967295 mask in
  subnet = Z.land (Z.lnot mask) 4294967295
  ∧ lower + subnet = Z.lor lower subnet
  ∧ 0 ≤ lower < 4294967296
  ∧ 0 ≤ lower + subnet < 4294967296.
Proof.
  intros Ha Hp mask lower subnet.
  assert (0 ≤ mask) as Hm.
  { unfold mask. rewrite netmask_value by done.
    apply Z.mul_nonneg_nonneg; [|apply Z.pow_nonneg; lia].
    assert (0 < 2 ^ Z.max p 0) by (apply Z.pow_pos_nonneg; lia). lia. }
  assert (∀ i, 0 ≤ i → Z.testbit subnet i = (i <? 32 - p)) as Hsub.
  { intros i Hi. unfold subnet, mask. change 4294967295 with (Z.ones 32).
    rewrite Z.lxor_spec, Z.testbit_ones, netmask_testbit by lia.
    destruct (Z.leb_spec 0 i), (Z.ltb_spec i 32), (Z.leb_spec (32 - p) i),
      (Z.ltb_spec i (32 - p)); simpl; lia. }
  assert (subnet = Z.land (Z.lnot mask) 4294967295) as Hnot.
  { apply Z.bits_inj'. intros i Hi. rewrite Hsub by done.
    change 4294967295 with (Z.ones 32). unfold mask.
    rewrite Z.land_spec, Z.lnot_spec, Z.testbit_ones, netmask_testbit by lia.
    destruct (Z.leb_spec 0 i), (Z.ltb_spec i 32), (Z.leb_spec (32 - p) i),
      (Z.ltb_spec i (32 - p)); simpl; lia. }
  assert (Z.land lower subnet = 0) as Hdisj.
  { apply Z.bits_inj'. intros i Hi. unfold lower, mask.
    rewrite !Z.land_spec, Hsub, netmask_testbit, Z.bits_0 by lia.
    destruct (Z.testbit addr i), (Z.ltb_spec i 32), (Z.leb_spec (32 - p) i),
      (Z.ltb_spec i (32 - p)); simpl; lia. }
  assert (0 ≤ lower) by (apply Z.land_nonneg; lia).
  assert (0 ≤ subnet) by (rewrite Hnot; apply Z.land_nonneg; lia).
  assert (lower + subnet = Z.lor lower subnet) as Hadd
    by (by rewrite Z.add_nocarry_lxor, Z.lxor_lor).
  split_and!; [done|done|done| |apply Z.add_nonneg_nonneg; lia|].
  - apply below_2_32; [done|]. intros i Hi. unfold lower, mask.
    rewrite Z.land_spec, netmask_testbit by lia.
    destruct (Z.testbit addr i), (Z.ltb_spec i 32), (Z.leb_spec (32 - p) i);
      simpl; lia.
  - rewrite Hadd. apply below_2_32; [apply Z.lor_nonneg; lia|].
    intros i Hi. unfold lower, mask.
    rewrite Z.lor_spec, Z.land_spec, Hsub, netmask_testbit by lia.
    destruct (Z.testbit addr i), (Z.ltb_spec i 32), (Z.leb_spec (32 - p) i),
      (Z.ltb_spec i (32 - p)); simpl; lia.
Qed.

Lemma fits_index_spec k :
  Py.fits_index k = true ↔ - 2 ^ 63 ≤ k < 2 ^ 63.
Proof. unfold Py.fits_index. rewrite andb_true_iff. lia. Qed.

Lemma repeat_fits c k :
  - 2 ^ 63 ≤ k < 2 ^ 63 → Py.repeat c k = Ret (Py.rep c k).
Proof.
  intros Hk. unfold Py.repeat. by rewrite (proj2 (fits_index_spec k) Hk).
Qed.

Lemma repeat_overflow c k :
  k < - 2 ^ 63 ∨ 2 ^ 63 ≤ k → Py.repeat c k = Raise OverflowError.
Proof.
  intros Hk. unfold Py.repeat.
  destruct (Py.fits_index k) eqn:E; [|done].
  apply fits_index_spec in E. lia.
Qed.

(** The repetition of [pad_binary] cannot fail: its count fits an index for
    every string whose length does. *)
Lemma pad_binary_fits bin_str length :
  Py.len bin_str < 2 ^ 63 → 0 ≤ length < 2 ^ 63 →
  Py.repeat "0" (length - Py.len bin_str)
  = Ret (Py.rep "0" (length - Py.len bin_str)).
Proof. intros Hlen Hl. apply repeat_fits. unfold Py.len in *. lia. Qed.

Lemma mask_ip_some ip p addr :
  parseIPv4 ip = Ret addr → 32 - 2 ^ 63 < p < 2 ^ 63 →
  mask_ip ip (Some p)
  = (let mask_int := (2 ^ Z.max p 0 - 1) * 2 ^ Z.max (32 - p) 0 in
     let lower_bound_int := Z.land addr mask_int in
     do lower_bound_str <- int_to_ip lower_bound_int;
     do upper_bound_str <-
       int_to_ip (lower_bound_int + Z.lxor 4294967295 mask_int);
     Ret (lower_bound_str, upper_bound_str)).
Proof.
  unfold parseIPv4, mask_ip. cbn [bind fst snd].
  destruct (ip_to_bin ip) as [ip_bin|]; [|done]. cbn [bind].
  intros -> Hp. cbn [bind].
  rewrite !repeat_fits by lia. cbn [bind]. by rewrite mask_bin_int.
Qed.

Lemma mask_ip_overflow ip p addr :
  parseIPv4 ip = Ret addr → p ≤ 32 - 2 ^ 63 ∨ 2 ^ 63 ≤ p →
  mask_ip ip (Some p) = Raise OverflowError.
Proof.
  unfold parseIPv4, mask_ip. cbn [bind fst snd].
  destruct (ip_to_bin ip) as [ip_bin|]; [|done]. cbn [bind].
  intros -> Hp. cbn [bind].
  destruct (Z_lt_le_dec p (- 2 ^ 63)) as [Hlo|Hlo];
    [by rewrite (repeat_overflow "1") by lia|].
  destruct (Z_lt_le_dec p (2 ^ 63)) as [Hhi|Hhi];
    [|by rewrite (repeat_overflow "1") by lia].
  rewrite (repeat_fits "1") by lia. cbn [bind].
  by rewrite (repeat_overflow "0") by lia.
Qed.

(** ** C1, C3, C4, C5 *)

(** C1. For an IPv4 address [addr] (the value of the text [ip]) and a prefix
    length in [[0,32]], [mask_ip] returns the text of [addr AND mask] and of
    [lower OR (NOT mask AND 0xFFFFFFFF)], where [mask] has [prefix_len]
    one-bits followed by zero-bits: the sum that the code computes is that
    bitwise or. At 32 both bounds are the address, at 0 they are 0.0.0.0 and
    255.255.255.255, and 104.39.72.0/22 is the range 104.39.72.0 to
    104.39.75.255. *)
Theorem mask_ip_range ip addr p :
  parseIPv4 ip = Ret addr → 0 ≤ addr < 4294967296 → 0 ≤ p ≤ 32 →
  let mask := netmask p in
  let lower := Z.land addr mask in
  let upper := Z.lor lower (Z.land (Z.lnot mask) 4294967295) in
  ∃ lower_str upper_str,
    mask_ip ip (Some p) = Ret (lower_str, upper_str)
    ∧ int_to_ip lower = Ret lower_str
    ∧ int_to_ip upper = Ret upper_str
    ∧ (p = 32 → lower = addr ∧ upper = addr
                ∧ (canonical_dotted_decimal ip = true →
                   lower_str = ip ∧ upper_str = ip))
    ∧ (p = 0 → lower_str = pys "0.0.0.0" ∧ upper_str = pys "255.255.255.255")
    ∧ mask_ip (pys "104.39.72.0/22") None
      = Ret (pys "104.39.72.0", pys "104.39.75.255").
Proof.
  intros Hparse Haddr Hp mask lower upper.
  destruct (mask_ip_bounds addr p ltac:(lia) Hp) as (Hnot & Hadd & Hlo & Hhi).
  fold mask in Hnot, Hadd, Hlo, Hhi. fold lower in Hadd, Hlo, Hhi.
  assert (lower + Z.lxor 4294967295 mask = upper) as Hupper
    by (unfold upper; by rewrite <- Hnot).
  rewrite Hupper in Hhi.
  destruct (int_to_ip_total lower ltac:(lia)) as [lower_str Hls].
  destruct (int_to_ip_total upper ltac:(lia)) as [upper_str Hus].
  exists lower_str, upper_str.
  assert (mask_ip ip (Some p) = Ret (lower_str, upper_str)) as Hmask.
  { rewrite (mask_ip_some _ _ _ Hparse) by lia. cbv zeta.
    rewrite <- netmask_value by done. fold mask. fold lower.
    by rewrite Hupper, Hls, Hus. }
  split_and!; [done|done|done| | |by vm_compute].
  - intros ->.
    assert (lower = addr) as Hl.
    { unfold lower, mask. change (netmask 32) with (Z.ones 32).
      rewrite Z.land_ones by lia. apply Z.mod_small. done. }
    assert (upper = addr) as Hu.
    { unfold upper. rewrite Hl. unfold mask.
      change (Z.land (Z.lnot (netmask 32)) 4294967295) with 0.
      apply Z.lor_0_r. }
    split_and!; [done..|]. intros Hdd.
    destruct (parseIPv4_dotted _ (canonical_dotted_decimal_dotted _ Hdd))
      as (v1 & v2 & v3 & v4 & Hv & Hs & _ & Hpa).
    specialize (Hs Hdd). rewrite Hu in Hus. rewrite Hl in Hls.
    rewrite Hparse in Hpa. injection Hpa as ->.
    rewrite int_to_ip_spec, octets_combine in Hls, Hus by lia.
    cbn [fmap list_fmap] in Hls, Hus. rewrite <- Hs in Hls, Hus.
    by simplify_eq.
  - intros ->.
    assert (lower = 0) as Hl by (unfold lower, mask; apply Z.land_0_r).
    assert (upper = 4294967295) as Hu by (unfold upper; by rewrite Hl).
    rewrite Hl in Hls. rewrite Hu in Hus.
    vm_compute in Hls, Hus. by simplify_eq.
Qed.

Lemma mask_ip_range_witness :
  ∃ lower_str upper_str,
    mask_ip (pys "104.39.72.0") (Some 22) = Ret (lower_str, upper_str)
    ∧ int_to_ip (Z.land 1747404800 (netmask 22)) = Ret lower_str
    ∧ int_to_ip
        (Z.lor (Z.land 1747404800 (netmask 22))
               (Z.land (Z.lnot (netmask 22)) 4294967295)) = Ret upper_str.
Proof.
  destruct (mask_ip_range (pys "104.39.72.0") 1747404800 22)
    as (lower_str & upper_str & H1 & H2 & H3 & _);
    [by vm_compute|lia|lia|].
  exists lower_str, upper_str. split; [exact H1|]. split; [exact H2|exact H3].
Defined.

(** C3 (as the code has it). A dotted-decimal string [s] (four decimal
    octets in [[0,255]] separated by dots) is converted to a 32-bit integer
    ([ip_to_bin], then [int(_, 2)]), and this integer is converted back
    ([int_to_ip]) to [s] itself when no octet of [s] has a leading zero. *)
Theorem ipv4_roundtrip s :
  dotted_decimal s = true →
  ∃ addr s', parseIPv4 s = Ret addr ∧ 0 ≤ addr < 4294967296
             ∧ formatIPv4 addr = Ret s'
             ∧ (canonical_dotted_decimal s = true → s' = s).
Proof.
  intros (v1 & v2 & v3 & v4 & Hv & Hs & _ & Hpa)%parseIPv4_dotted.
  eexists _, _. split; [exact Hpa|]. split; [lia|].
  unfold formatIPv4. rewrite int_to_ip_spec, octets_combine by lia.
  split; [done|]. by intros ->%Hs.
Qed.

Lemma ipv4_roundtrip_witness :
  ∃ addr s', parseIPv4 (pys "104.39.72.0") = Ret addr ∧ 0 ≤ addr < 4294967296
             ∧ formatIPv4 addr = Ret s'
             ∧ (canonical_dotted_decimal (pys "104.39.72.0") = true →
                s' = pys "104.39.72.0").
Proof. apply (ipv4_roundtrip (pys "104.39.72.0")). by vm_compute. Defined.

(** C3 fails as stated: 01.2.3.4 is made of four decimal octets in
    [[0,255]], and it comes back as 1.2.3.4. *)
Lemma ipv4_roundtrip_leading_zero :
  dotted_decimal (pys "01.2.3.4") = true
  ∧ parseIPv4 (pys "01.2.3.4") = Ret 16909060
  ∧ formatIPv4 16909060 = Ret (pys "1.2.3.4")
  ∧ pys "1.2.3.4" ≠ pys "01.2.3.4".
Proof. split_and!; [by vm_compute..|]. by vm_compute. Qed.

(** C4 (as the code has it). [mask_ip] does not check the prefix length and
    has no error of its own for it. For an IPv4 address and a prefix length
    outside [[0,32]] of at most 65536 in absolute value (the two strings of
    line 187 are then short) it returns a pair of strings: a negative prefix
    length gives the range of prefix length 0; above 32 the lower bound is
    the address itself. The only failure a prefix length causes is that of
    the repetition at line 187: a prefix length that does not fit an
    index-sized integer, or whose difference from 32 does not, makes it
    raise [OverflowError]. *)
Theorem mask_ip_unchecked_prefix ip addr p :
  parseIPv4 ip = Ret addr → 0 ≤ addr < 4294967296 →
  - 65536 ≤ p < 0 ∨ 32 < p ≤ 65536 →
  (∃ lower_str upper_str,
     mask_ip ip (Some p) = Ret (lower_str, upper_str)
     ∧ (p < 0 →
        lower_str = pys "0.0.0.0" ∧ upper_str = pys "255.255.255.255")
     ∧ (32 < p → formatIPv4 addr = Ret lower_str))
  ∧ (∀ q, q ≤ 32 - 2 ^ 63 ∨ 2 ^ 63 ≤ q →
          mask_ip ip (Some q) = Raise OverflowError).
Proof.
  intros Hparse Haddr Hp. split; [|intros q Hq; by eapply mask_ip_overflow].
  rewrite (mask_ip_some _ _ _ Hparse) by lia. cbv zeta.
  destruct (decide (p < 0)) as [Hneg|Hpos].
  - rewrite (Z.max_r p 0), Z.pow_0_r, Z.sub_diag, Z.mul_0_l, Z.land_0_r by lia.
    eexists _, _. split; [by vm_compute|]. split; [done|lia].
  - assert (32 < p) as H32 by lia.
    rewrite (Z.max_l p 0), (Z.max_r (32 - p) 0), Z.pow_0_r, Z.mul_1_r by lia.
    assert (2 ^ p - 1 = Z.ones p) as -> by (rewrite Z.ones_equiv; lia).
    assert (Z.land addr (Z.ones p) = addr) as ->.
    { rewrite Z.land_ones by lia. apply Z.mod_small.
      assert (2 ^ 32 ≤ 2 ^ p) by (apply Z.pow_le_mono_r; lia). lia. }
    assert (0 ≤ Z.lxor 4294967295 (Z.ones p)).
    { apply Z.lxor_nonneg. split; intros _; [|lia].
      rewrite Z.ones_equiv.
      assert (0 < 2 ^ p) by (apply Z.pow_pos_nonneg; lia). lia. }
    destruct (int_to_ip_total addr ltac:(lia)) as [lower_str Hls].
    destruct (int_to_ip_total (addr + Z.lxor 4294967295 (Z.ones p)) ltac:(lia))
      as [upper_str Hus].
    exists lower_str, upper_str. rewrite Hls, Hus. split; [done|].
    split; [lia|done].
Qed.

Lemma mask_ip_unchecked_prefix_witness :
  (∃ lower_str upper_str,
     mask_ip (pys "10.0.0.5") (Some 33) = Ret (lower_str, upper_str)
     ∧ (33 < 0 →
        lower_str = pys "0.0.0.0" ∧ upper_str = pys "255.255.255.255")
     ∧ (32 < 33 → formatIPv4 167772165 = Ret lower_str))
  ∧ mask_ip (pys "10.0.0.5") (Some (2 ^ 64)) = Raise OverflowError
  ∧ mask_ip (pys "10.0.0.5") (Some (- 2 ^ 64)) = Raise OverflowError.
Proof.
  destruct (mask_ip_unchecked_prefix (pys "10.0.0.5") 167772165 33)
    as [Hret Hover]; [by vm_compute|lia|lia|].
  split; [exact Hret|]. split; apply Hover; lia.
Defined.

(** C4 fails as stated: with the prefix lengths -1 and 33 [mask_ip] returns
    a range and raises nothing. *)
Lemma mask_ip_prefix_out_of_range_returns :
  mask_ip (pys "10.0.0.5") (Some (-1))
  = Ret (pys "0.0.0.0", pys "255.255.255.255")
  ∧ mask_ip (pys "10.0.0.5") (Some 33) = Ret (pys "10.0.0.5", pys "133.0.0.2")
  ∧ ¬ (∃ e, mask_ip (pys "10.0.0.5") (Some 33) = Raise e).
Proof.
  split_and!; [by vm_compute..|]. intros [e He]. vm_compute in He. done.
Qed.




(** ** The wifi parser: C2 and C7 *)

Lemma wifi_step_complete st line :
  wifi_complete st = true → wifi_complete (wifi_step st line) = true.
Proof.
  unfold wifi_complete, wifi_step. destruct st as [i [s|] [m|]]; simpl; try done.
  intros _. by repeat case_match.
Qed.

Lemma wifi_scan_complete st lines :
  wifi_complete st = true → wifi_complete (foldl wifi_step st lines) = true.
Proof.
  revert st. induction lines as [|l lines IH]; intros st H; [done|].
  simpl. apply IH. by apply wifi_step_complete.
Qed.

Lemma wifi_step_ssid st line :
  is_Some (Re.search ssid_re line) ∨ is_Some (wifi_ssid st) →
  is_Some (wifi_ssid (wifi_step st line)).
Proof.
  unfold wifi_step. cbn [wifi_ssid]. intros [[g ->]|[s Hs]].
  - destruct (falsy (wifi_ssid st)) eqn:Hf; [by eexists|].
    by destruct (wifi_ssid st).
  - rewrite Hs. by repeat case_match.
Qed.

Lemma wifi_step_mac st line :
  is_Some (Re.search mac_re line) ∨ is_Some (wifi_mac st) →
  is_Some (wifi_mac (wifi_step st line)).
Proof.
  unfold wifi_step. cbn [wifi_mac]. intros [[g ->]|[s Hs]].
  - destruct (falsy (wifi_mac st)) eqn:Hf; [by eexists|].
    by destruct (wifi_mac st).
  - rewrite Hs. by repeat case_match.
Qed.

Lemma wifi_scan_found st lines :
  ((∃ l, l ∈ lines ∧ is_Some (Re.search ssid_re l)) ∨ is_Some (wifi_ssid st)) →
  ((∃ l, l ∈ lines ∧ is_Some (Re.search mac_re l)) ∨ is_Some (wifi_mac st)) →
  wifi_complete (foldl wifi_step st lines) = true.
Proof.
  revert st. induction lines as [|l lines IH]; intros st Hs Hm.
  - destruct Hs as [(? & []%elem_of_nil & _)|[s Hs]].
    destruct Hm as [(? & []%elem_of_nil & _)|[m Hm]].
    unfold wifi_complete. simpl. by rewrite Hs, Hm.
  - simpl. apply IH.
    + destruct Hs as [(l' & [->|Hin]%elem_of_cons & Hl')|Hs]; [|by eauto|].
      * right. apply wifi_step_ssid. by left.
      * right. apply wifi_step_ssid. by right.
    + destruct Hm as [(l' & [->|Hin]%elem_of_cons & Hl')|Hm]; [|by eauto|].
      * right. apply wifi_step_mac. by left.
      * right. apply wifi_step_mac. by right.
Qed.

(** The loop with [break] returns the state at the first line that makes it
    complete. *)
Lemma wifi_loop_stop st pre line post :
  wifi_complete (foldl wifi_step st pre) = false →
  wifi_complete (wifi_step (foldl wifi_step st pre) line) = true →
  wifi_loop st (pre ++ line :: post) = wifi_step (foldl wifi_step st pre) line.
Proof.
  revert st. induction pre as [|l pre IH]; intros st Hpre Hline; simpl in *.
  - by rewrite Hline.
  - destruct (wifi_complete (wifi_step st l)) eqn:Hl; [|by apply IH].
    by rewrite (wifi_scan_complete _ pre Hl) in Hpre.
Qed.

Lemma wifi_loop_exhausted st lines :
  wifi_complete (foldl wifi_step st lines) = false →
  wifi_loop st lines = foldl wifi_step st lines.
Proof.
  revert st. induction lines as [|l lines IH]; intros st H; simpl in *; [done|].
  destruct (wifi_complete (wifi_step st l)) eqn:Hl; [|by apply IH].
  by rewrite (wifi_scan_complete _ lines Hl) in H.
Qed.

Lemma first_complete st lines :
  wifi_complete st = false →
  wifi_complete (foldl wifi_step st lines) = true →
  ∃ pre line post, lines = pre ++ line :: post
    ∧ wifi_complete (foldl wifi_step st pre) = false
    ∧ wifi_complete (wifi_step (foldl wifi_step st pre) line) = true.
Proof.
  revert st. induction lines as [|l lines IH]; intros st Hst H; simpl in *.
  - congruence.
  - destruct (wifi_complete (wifi_step st l)) eqn:Hl.
    + by exists [], l, lines.
    + destruct (IH _ Hl H) as (pre & line & post & -> & Hpre & Hline).
      by exists (l :: pre), line, post.
Qed.

Lemma wifi_scan_interface st lines :
  wifi_interface (foldl wifi_step st lines)
  = foldl (λ name line,
             match Re.search interface_re line with
             | Some g => Some g
             | None => name
             end) (wifi_interface st) lines.
Proof.
  revert st. induction lines as [|l lines IH]; intros st; [done|].
  simpl. by rewrite IH.
Qed.

(** Whatever the state holds was captured on one of the lines read. *)
Lemma wifi_scan_sources lines :
  (∀ s, wifi_ssid (wifi_scan lines) = Some s →
        ∃ l, l ∈ lines ∧ Re.search ssid_re l = Some s)
  ∧ (∀ m, wifi_mac (wifi_scan lines) = Some m →
          ∃ l, l ∈ lines ∧ Re.search mac_re l = Some m).
Proof.
  unfold wifi_scan. induction lines as [|l lines IH] using rev_ind; [done|].
  rewrite foldl_app. simpl. destruct IH as [IHs IHm].
  set (st := foldl wifi_step wifi_none lines) in *.
  unfold wifi_step. cbn [wifi_ssid wifi_mac]. split.
  - intros s Hs.
    assert (Re.search ssid_re l = Some s ∨ wifi_ssid st = Some s) as [?|?]
      by (repeat case_match; simplify_eq; auto).
    + exists l. split; [apply elem_of_app; right; by left|done].
    + destruct (IHs s) as (l' & ? & ?); [done|].
      exists l'. split; [apply elem_of_app; by left|done].
  - intros m Hm.
    assert (Re.search mac_re l = Some m ∨ wifi_mac st = Some m) as [?|?]
      by (repeat case_match; simplify_eq; auto).
    + exists l. split; [apply elem_of_app; right; by left|done].
    + destruct (IHm m) as (l' & ? & ?); [done|].
      exists l'. split; [apply elem_of_app; by left|done].
Qed.

(** C2 on the code: when the lines run out before both the SSID and the MAC
    are known, [get_wifi_info] returns what it has: the interface name alone,
    or the interface name and the SSID. *)
Lemma wifi_partial_result :
  parse_wifi_info iwconfig_not_associated
  = WifiInfo (Some (pys "wlan0")) None None
  ∧ parse_wifi_info iwconfig_ssid_only
    = WifiInfo (Some (pys "wlan0")) (Some (pys "home")) None
  ∧ wifi_complete (wifi_scan (Py.splitlines iwconfig_not_associated)) = false
  ∧ wifi_complete (wifi_scan (Py.splitlines iwconfig_ssid_only)) = false.
Proof. by vm_compute. Qed.

(** ** Splitting on whitespace *)

Lemma split_ws_go_spaces cur t :
  Forall (λ c, Py.isspace c = true) t →
  Py.split_ws_go cur t = match cur with [] => [] | _ => [reverse cur] end.
Proof.
  intros H. revert cur. induction H as [|c t Hc _ IH]; intros cur; [done|].
  simpl. rewrite Hc, (IH []). by destruct cur.
Qed.

Lemma split_ws_go_trailing cur s t :
  Forall (λ c, Py.isspace c = true) t →
  Py.split_ws_go cur (s ++ t) = Py.split_ws_go cur s.
Proof.
  intros H. revert cur. induction s as [|c s IH]; intros cur.
  - simpl. by apply split_ws_go_spaces.
  - simpl. by rewrite !IH.
Qed.

Lemma lstrip_chars_spec chars s :
  ∃ t, s = t ++ Py.lstrip_chars chars s ∧ Forall (λ c, c ∈ chars) t.
Proof.
  induction s as [|c s (t & Hs & Ht)]; [by exists []|].
  simpl. destruct (bool_decide_reflect (c ∈ chars)) as [Hc|Hc].
  - exists (c :: t). split; [by rewrite Hs at 1|by constructor].
  - by exists [].
Qed.

Lemma rstrip_chars_spec chars s :
  ∃ t, s = Py.rstrip_chars chars s ++ t ∧ Forall (λ c, c ∈ chars) t.
Proof.
  unfold Py.rstrip_chars.
  destruct (lstrip_chars_spec chars (reverse s)) as (t & Hs & Ht).
  exists (reverse t). split; [|by apply Forall_reverse].
  rewrite <- reverse_app, <- Hs. by rewrite reverse_involutive.
Qed.

(** Stripping the end of line before [split()] changes nothing. *)
Lemma split_ws_rstrip line :
  Py.split_ws (Py.rstrip_chars crlf line) = Py.split_ws line.
Proof.
  destruct (rstrip_chars_spec crlf line) as (t & Hs & Ht).
  rewrite Hs at 2. unfold Py.split_ws. symmetry. apply split_ws_go_trailing.
  eapply Forall_impl; [exact Ht|]. intros c Hc.
  apply elem_of_cons in Hc as [->|Hc]; [done|].
  apply elem_of_cons in Hc as [->|Hc]; [done|]. by apply elem_of_nil in Hc.
Qed.

(** ** The default route: C8 *)

Lemma route_loop_step line lines :
  route_loop (line :: lines)
  = if is_default_route line
    then (Py.split_ws line !! 4%nat, Py.split_ws line !! 2%nat)
    else route_loop lines.
Proof.
  cbn [route_loop]. rewrite split_ws_rstrip. unfold is_default_route.
  destruct (Z.ltb_spec (Z.of_nat (length (Py.split_ws line))) 7).
  - by rewrite bool_decide_eq_false_2 by lia.
  - by rewrite (bool_decide_eq_true_2 (7 ≤ _)%nat) by lia.
Qed.

(** C8. The parser splits each line on whitespace and returns the fields 4
    and 2 of the first line that has 7 fields at least and whose fields 0, 1
    and 3 are [default], [via] and [dev]: lines before it that do not match
    (among them all lines with fewer than 7 fields) are skipped, lines after
    it are ignored. Without such a line both results are [None]. *)
Theorem default_route_first_match output :
  let lines := Py.splitlines output in
  (∀ pre line post,
     lines = pre ++ line :: post →
     Forall (λ l, is_default_route l = false) pre →
     is_default_route line = true →
     ∃ interface gateway,
       Py.split_ws line !! 4%nat = Some interface
       ∧ Py.split_ws line !! 2%nat = Some gateway
       ∧ parse_default_route output = (Some interface, Some gateway))
  ∧ (Forall (λ l, is_default_route l = false) lines →
     parse_default_route output = (None, None))
  ∧ (∀ l, (length (Py.split_ws l) < 7)%nat → is_default_route l = false)
  ∧ parse_default_route ip_route_show
    = (Some (pys "wlan0"), Some (pys "10.21.160.1")).
Proof.
  intros lines. unfold parse_default_route. fold lines. split_and!.
  - intros pre line post -> Hpre Hline.
    assert (route_loop (pre ++ line :: post)
            = (Py.split_ws line !! 4%nat, Py.split_ws line !! 2%nat)) as ->.
    { induction Hpre as [|l pre Hl _ IH]; simpl app;
        rewrite route_loop_step; [by rewrite Hline|by rewrite Hl]. }
    unfold is_default_route in Hline.
    rewrite !andb_true_iff, !bool_decide_eq_true in Hline.
    destruct Hline as [[[Hlen _] _] _].
    destruct (lookup_lt_is_Some_2 (Py.split_ws line) 4) as [i Hi]; [lia|].
    destruct (lookup_lt_is_Some_2 (Py.split_ws line) 2) as [g Hg]; [lia|].
    exists i, g. by rewrite Hi, Hg.
  - induction 1 as [|l ls Hl _ IH]; [done|].
    by rewrite route_loop_step, Hl.
  - intros l Hl. unfold is_default_route.
    by rewrite bool_decide_eq_false_2 by lia.
  - by vm_compute.
Qed.

Lemma default_route_first_match_witness :
  ∃ interface gateway,
    Py.split_ws (pys "default via 10.21.160.1 dev wlan0  proto static metric 600")
      !! 4%nat = Some interface
    ∧ Py.split_ws (pys "default via 10.21.160.1 dev wlan0  proto static metric 600")
        !! 2%nat = Some gateway
    ∧ parse_default_route ip_route_show = (Some interface, Some gateway).
Proof.
  apply (proj1 (default_route_first_match ip_route_show)
           [pys "10.21.160.0/22 dev wlan0 proto kernel scope link src 10.21.160.7"]
           (pys "default via 10.21.160.1 dev wlan0  proto static metric 600")
           [pys "default via 192.168.0.1 dev eth0  proto static metric 700"]).
  - by vm_compute.
  - repeat constructor.
  - by vm_compute.
Defined.

(** ** The ARP table: C6 and C10 *)

Lemma int_raises_ValueError s b e : Py.int s b = Raise e → e = ValueError.
Proof. unfold Py.int. intros H. by repeat case_match; simplify_eq. Qed.

Lemma arp_loop_spec table lines :
  arp_loop table false lines = Ret (foldl arp_put table lines).
Proof.
  revert table. induction lines as [|line lines IH]; intros table; [done|].
  cbn [arp_loop foldl]. rewrite split_ws_rstrip. unfold arp_put at 2, arp_row.
  destruct (Py.split_ws line) as [|ip [|hwtype [|flags [|mac [|mask
    [|interface [|? ?]]]]]]]; try apply IH.
  destruct (Py.int hwtype 16) as [hw|e1] eqn:H1; cbn [bind except_ValueError].
  - destruct (Py.int flags 16) as [fl|e2] eqn:H2; cbn [bind except_ValueError].
    + apply IH.
    + apply int_raises_ValueError in H2 as ->. apply IH.
  - apply int_raises_ValueError in H1 as ->. apply IH.
Qed.

Lemma arp_loop_header table lines :
  arp_loop table true lines = Ret (foldl arp_put table (drop 1 lines)).
Proof. destruct lines as [|header lines]; [done|]. apply arp_loop_spec. Qed.

Lemma upper_char_not_lower c : is_lower (Py.upper_char c) = false.
Proof. by destruct c as [[] [] [] [] [] [] [] []]. Qed.

Lemma upper_not_lower s : Forall (λ c, is_lower c = false) (Py.upper s).
Proof.
  unfold Py.upper. apply Forall_fmap, Forall_forall. intros c _.
  apply upper_char_not_lower.
Qed.

Lemma arp_row_spec line ip entry :
  arp_row line = Some (ip, entry) ↔
  ∃ hwtype flags mac mask interface hw fl,
    Py.split_ws line = [ip; hwtype; flags; mac; mask; interface]
    ∧ Py.int hwtype 16 = Ret hw ∧ Py.int flags 16 = Ret fl
    ∧ entry = arp_entry ip hw fl (Py.upper mac) mask interface.
Proof.
  unfold arp_row. split.
  - intros H. repeat case_match; simplify_eq. by eexists _, _, _, _, _, _, _.
  - intros (hwtype & flags & mac & mask & interface & hw & fl
            & -> & -> & -> & ->). done.
Qed.

Lemma arp_put_last table pre line post ip entry :
  arp_row line = Some (ip, entry) →
  Forall (λ l, ∀ e, arp_row l ≠ Some (ip, e)) post →
  foldl arp_put table (pre ++ line :: post) !! ip = Some entry.
Proof.
  intros Hrow Hpost. rewrite foldl_app. cbn [foldl].
  assert (arp_put (foldl arp_put table pre) line !! ip = Some entry) as Hnow.
  { unfold arp_put. rewrite Hrow. apply lookup_insert_eq. }
  generalize dependent (arp_put (foldl arp_put table pre) line).
  induction Hpost as [|l post Hl _ IH]; intros t Ht; [done|].
  cbn [foldl]. apply IH. unfold arp_put.
  destruct (arp_row l) as [[ip' e']|] eqn:Hr; [|done].
  rewrite lookup_insert_ne; [done|]. intros ->. by apply (Hl e').
Qed.

Lemma arp_entry_lookup ip hwtype flags mac mask interface :
  let entry := arp_entry ip hwtype flags mac mask interface in
  entry !! pys "ip" = Some (VStr ip)
  ∧ entry !! pys "hwtype" = Some (VInt hwtype)
  ∧ entry !! pys "flags" = Some (VInt flags)
  ∧ entry !! pys "mac" = Some (VStr mac)
  ∧ entry !! pys "mask" = Some (VStr mask)
  ∧ entry !! pys "interface" = Some (VStr interface)
  ∧ dom entry = list_to_set arp_keys.
Proof.
  intros entry. unfold entry, arp_entry, arp_keys.
  split_and!;
    first [by simplify_map_eq|rewrite !dom_insert_L, dom_empty_L; set_solver].
Qed.

(** C6. The parser skips the first line whatever it is; each later line is
    split on whitespace and kept only if it has exactly six fields and its
    [hwtype] and [flags] are numerals in base 16, otherwise the line adds
    nothing; a kept line is stored under its [ip] with the MAC in upper
    case, and the last kept line of an [ip] is the one in the table. The
    entry stored for a kept line holds the six fields of the line under the
    keys [ip], [hwtype], [flags], [mac], [mask] and [interface], the two
    numerals as integers, the MAC upper-cased, the other fields as they are
    written, and no other key. *)
Theorem arp_table_parse env proc_path arp_file :
  read_file env proc_path = Ret arp_file →
  get_arp_table env proc_path
  = Ret (foldl arp_put ∅ (drop 1 (Py.readlines arp_file)))
  ∧ (∀ header header' lines,
       arp_loop ∅ true (header :: lines) = arp_loop ∅ true (header' :: lines))
  ∧ (∀ table line,
       (∀ ip entry, arp_row line = Some (ip, entry) ↔
          ∃ hwtype flags mac mask interface hw fl,
            Py.split_ws line = [ip; hwtype; flags; mac; mask; interface]
            ∧ Py.int hwtype 16 = Ret hw ∧ Py.int flags 16 = Ret fl
            ∧ entry = arp_entry ip hw fl (Py.upper mac) mask interface)
       ∧ (arp_row line = None → arp_put table line = table)
       ∧ (∀ ip entry, arp_row line = Some (ip, entry) →
                      arp_put table line = <[ip := entry]> table))
  ∧ (∀ pre line post ip entry,
       arp_row line = Some (ip, entry) →
       Forall (λ l, ∀ e, arp_row l ≠ Some (ip, e)) post →
       foldl arp_put ∅ (pre ++ line :: post) !! ip = Some entry)
  ∧ arp_loop ∅ true (Py.readlines proc_net_arp)
    = Ret {[ pys "10.0.0.5" :=
               arp_entry (pys "10.0.0.5") 1 2 (pys "AA:BB:CC:DD:EE:FF")
                 (pys "*") (pys "eth0") ]}
  ∧ (∀ header pre line post ip hwtype flags mac mask interface hw fl,
       Py.split_ws line = [ip; hwtype; flags; mac; mask; interface] →
       Py.int hwtype 16 = Ret hw → Py.int flags 16 = Ret fl →
       Forall (λ l, ∀ e, arp_row l ≠ Some (ip, e)) post →
       ∃ table entry,
         arp_loop ∅ true (header :: pre ++ line :: post) = Ret table
         ∧ table !! ip = Some entry
         ∧ entry !! pys "ip" = Some (VStr ip)
         ∧ entry !! pys "hwtype" = Some (VInt hw)
         ∧ entry !! pys "flags" = Some (VInt fl)
         ∧ entry !! pys "mac" = Some (VStr (Py.upper mac))
         ∧ entry !! pys "mask" = Some (VStr mask)
         ∧ entry !! pys "interface" = Some (VStr interface)
         ∧ (∀ key, is_Some (entry !! key) ↔ key ∈ arp_keys))
  ∧ (∃ table entry,
       arp_loop ∅ true (Py.readlines proc_net_arp) = Ret table
       ∧ (∀ ip, is_Some (table !! ip) ↔ ip = pys "10.0.0.5")
       ∧ table !! pys "10.0.0.5" = Some entry
       ∧ entry !! pys "ip" = Some (VStr (pys "10.0.0.5"))
       ∧ entry !! pys "hwtype" = Some (VInt 1)
       ∧ entry !! pys "flags" = Some (VInt 2)
       ∧ entry !! pys "mac" = Some (VStr (pys "AA:BB:CC:DD:EE:FF"))
       ∧ entry !! pys "mask" = Some (VStr (pys "*"))
       ∧ entry !! pys "interface" = Some (VStr (pys "eth0"))).
Proof.
  intros Hread. split_and!.
  - unfold get_arp_table. rewrite Hread. apply arp_loop_header.
  - intros header header' lines. by rewrite !arp_loop_header.
  - intros table line. split_and!.
    + intros ip entry. apply arp_row_spec.
    + unfold arp_put. by intros ->.
    + unfold arp_put. by intros ip entry ->.
  - intros pre line post ip entry. apply arp_put_last.
  - rewrite arp_loop_header. reflexivity.
  - intros header pre line post ip hwtype flags mac mask interface hw fl
      Hsplit Hhw Hfl Hpost.
    assert (arp_row line
            = Some (ip, arp_entry ip hw fl (Py.upper mac) mask interface))
      as Hrow.
    { apply arp_row_spec. by exists hwtype, flags, mac, mask, interface, hw, fl. }
    exists (foldl arp_put ∅ (pre ++ line :: post)),
      (arp_entry ip hw fl (Py.upper mac) mask interface).
    destruct (arp_entry_lookup ip hw fl (Py.upper mac) mask interface)
      as (H1 & H2 & H3 & H4 & H5 & H6 & Hdom).
    split_and!; first [done|apply arp_loop_header|by apply arp_put_last|idtac].
    intros key. rewrite <- elem_of_dom, Hdom. set_solver.
  - rewrite arp_loop_header.
    eexists _, (arp_entry (pys "10.0.0.5") 1 2 (pys "AA:BB:CC:DD:EE:FF")
                  (pys "*") (pys "eth0")).
    split; [reflexivity|].
    change (foldl arp_put ∅ (drop 1 (Py.readlines proc_net_arp)))
      with (<[pys "10.0.0.5" :=
                arp_entry (pys "10.0.0.5") 1 2 (pys "AA:BB:CC:DD:EE:FF")
                  (pys "*") (pys "eth0")]>
              (∅ : gmap pystr (gmap pystr pyval))).
    destruct (arp_entry_lookup (pys "10.0.0.5") 1 2 (pys "AA:BB:CC:DD:EE:FF")
                (pys "*") (pys "eth0")) as (H1 & H2 & H3 & H4 & H5 & H6 & _).
    split_and!; first [done|by rewrite lookup_insert_eq|idtac].
    intros ip. destruct (decide (ip = pys "10.0.0.5")) as [->|Hne].
    + rewrite lookup_insert_eq. split; [done|by eexists].
    + rewrite lookup_insert_ne, lookup_empty by done.
      split; [by intros [? ?]|done].
Qed.

Lemma arp_table_parse_witness :
  get_arp_table
    {| path_defined := true; find_executable := λ _, None;
       check_output := λ _, Raise OSError;
       gethostbyname := λ _, Raise SocketError;
       read_file := λ _, Ret proc_net_arp |} (pys "/proc/net/arp")
  = Ret (foldl arp_put ∅ (drop 1 (Py.readlines proc_net_arp))).
Proof.
  apply (arp_table_parse
           {| path_defined := true; find_executable := λ _, None;
              check_output := λ _, Raise OSError;
              gethostbyname := λ _, Raise SocketError;
              read_file := λ _, Ret proc_net_arp |}
           (pys "/proc/net/arp") proc_net_arp).
  reflexivity.
Defined.

Lemma arp_keys_NoDup : NoDup arp_keys.
Proof. by apply (bool_decide_unpack _). Qed.

Lemma arp_put_invariant (P : pystr → gmap pystr pyval → Prop) table lines :
  (∀ line ip entry, arp_row line = Some (ip, entry) → P ip entry) →
  map_Forall P table → map_Forall P (foldl arp_put table lines).
Proof.
  intros Hrow. revert table. induction lines as [|line lines IH];
    intros table Htable; [done|].
  cbn [foldl]. apply IH. unfold arp_put.
  destruct (arp_row line) as [[ip entry]|] eqn:Hr; [|done].
  apply map_Forall_insert_2; [by eapply Hrow|done].
Qed.

(** C10. In a table that [get_arp_table] returns every key maps to an entry
    whose [ip] is the key; the entry has exactly the six fields [ip],
    [hwtype], [flags], [mac], [mask] and [interface]; [hwtype] and [flags]
    are integers and [mac] has no letter in lower case. *)
Theorem arp_table_invariant env proc_path table k entry :
  get_arp_table env proc_path = Ret table →
  table !! k = Some entry →
  ∃ hwtype flags mac mask interface,
    entry = arp_entry k hwtype flags mac mask interface
    ∧ entry !! pys "ip" = Some (VStr k)
    ∧ entry !! pys "hwtype" = Some (VInt hwtype)
    ∧ entry !! pys "flags" = Some (VInt flags)
    ∧ entry !! pys "mac" = Some (VStr mac)
    ∧ entry !! pys "mask" = Some (VStr mask)
    ∧ entry !! pys "interface" = Some (VStr interface)
    ∧ Forall (λ c, is_lower c = false) mac
    ∧ dom entry = list_to_set arp_keys
    ∧ size (dom entry) = 6%nat.
Proof.
  unfold get_arp_table. intros Hget Hk.
  destruct (read_file env proc_path) as [arp_file|]; [|done].
  cbn [bind] in Hget. rewrite arp_loop_header in Hget. injection Hget as <-.
  pose proof (arp_put_invariant
    (λ ip e, ∃ hwtype flags mac mask interface,
       e = arp_entry ip hwtype flags mac mask interface
       ∧ Forall (λ c, is_lower c = false) mac)
    ∅ (drop 1 (Py.readlines arp_file))) as Hinv.
  destruct (Hinv) with (i := k) (x := entry)
    as (hwtype & flags & mac & mask & interface & -> & Hmac); [| |done|].
  - intros line ip e
      (hwtype & flags & mac & mask & interface & hw & fl & _ & _ & _ & ->)%arp_row_spec.
    eexists _, _, _, _, _. split; [done|]. apply upper_not_lower.
  - apply map_Forall_empty.
  - exists hwtype, flags, mac, mask, interface.
    destruct (arp_entry_lookup k hwtype flags mac mask interface)
      as (? & ? & ? & ? & ? & ? & Hdom).
    split_and!;
      first [done|by rewrite Hdom, size_list_to_set by apply arp_keys_NoDup].
Qed.

Lemma arp_table_invariant_witness :
  ∃ hwtype flags mac mask interface,
    arp_entry (pys "10.0.0.5") 1 2 (pys "AA:BB:CC:DD:EE:FF") (pys "*") (pys "eth0")
    = arp_entry (pys "10.0.0.5") hwtype flags mac mask interface
    ∧ Forall (λ c, is_lower c = false) mac.
Proof.
  destruct (arp_table_invariant
              {| path_defined := true; find_executable := λ _, None;
                 check_output := λ _, Raise OSError;
                 gethostbyname := λ _, Raise SocketError;
                 read_file := λ _, Ret proc_net_arp |}
              (pys "/proc/net/arp")
              {[ pys "10.0.0.5" :=
                   arp_entry (pys "10.0.0.5") 1 2 (pys "AA:BB:CC:DD:EE:FF")
                     (pys "*") (pys "eth0") ]}
              (pys "10.0.0.5")
              (arp_entry (pys "10.0.0.5") 1 2 (pys "AA:BB:CC:DD:EE:FF")
                 (pys "*") (pys "eth0")))
    as (hwtype & flags & mac & mask & interface & H1 & _ & _ & _ & _ & _ & _
        & H2 & _).
  - reflexivity.
  - apply lookup_singleton_eq.
  - exists hwtype, flags, mac, mask, interface. split; [exact H1|exact H2].
Defined.

(** ** The lookups that never fail: C9 *)

(** C9. When the command cannot be run ([OSError], the executable is not
    found) or exits with a status that is not zero ([CalledProcessError]),
    [get_wifi_info], [get_default_route] and [dig_ip] return their results
    of [None]; when the resolver fails ([socket.error]), [dns_query] returns
    [None]. None of these exceptions leaves one of the four functions. *)
Theorem lookups_absorb_failures env domain e :
  e = OSError ∨ e = CalledProcessError →
  (check_output env [choose_cmd env (pys "iwconfig") (pys "/sbin/iwconfig")]
   = Raise e →
   get_wifi_info env = Ret (WifiInfo None None None))
  ∧ (check_output env [choose_cmd env (pys "ip") (pys "/sbin/ip");
                       pys "route"; pys "show"] = Raise e →
     get_default_route env = Ret (None, None))
  ∧ (check_output env [choose_cmd env (pys "dig") (pys "/usr/bin/dig");
                       pys "+short"; pys "+time=1"; pys "+tries=2"; domain]
     = Raise e →
     dig_ip env domain = Ret None)
  ∧ (gethostbyname env domain = Raise SocketError →
     dns_query env domain = Ret None)
  ∧ get_wifi_info env ≠ Raise e
  ∧ get_default_route env ≠ Raise e
  ∧ dig_ip env domain ≠ Raise e
  ∧ dns_query env domain ≠ Raise SocketError.
Proof.
  intros He.
  assert (is_command_failure e = true) as Hfail by (by destruct He as [-> | ->]).
  unfold get_wifi_info, get_default_route, dig_ip, dns_query.
  split_and!.
  - intros ->. by rewrite Hfail.
  - intros ->. by rewrite Hfail.
  - intros ->. by rewrite Hfail.
  - by intros ->.
  - destruct (check_output env _) as [out|e'] eqn:Hrun; [done|].
    destruct (is_command_failure e') eqn:He'; [done|]. congruence.
  - destruct (check_output env _) as [out|e'] eqn:Hrun; [done|].
    destruct (is_command_failure e') eqn:He'; [done|]. congruence.
  - destruct (check_output env _) as [out|e'] eqn:Hrun.
    + by destruct (Py.splitlines out).
    + destruct (is_command_failure e') eqn:He'; [done|]. congruence.
  - destruct (gethostbyname env domain) as [ip|e'] eqn:Hrun; [done|].
    by destruct e'.
Qed.

Lemma lookups_absorb_failures_witness :
  get_wifi_info failing_env = Ret (WifiInfo None None None)
  ∧ get_default_route failing_env = Ret (None, None)
  ∧ dig_ip failing_env (pys "example.org") = Ret None
  ∧ dns_query failing_env (pys "example.org") = Ret None.
Proof.
  destruct (lookups_absorb_failures failing_env (pys "example.org") OSError)
    as (H1 & H2 & H3 & H4 & _); [by left|].
  split; [by apply H1|]. split; [by apply H2|].
  split; [by apply H3|by apply H4].
Defined.

(** * Further properties of the code *)

(** ** More about digits *)

Lemma digits2_length n :
  0 ≤ n → Z.of_nat (length (Py.digits 2 n)) = Z.log2 n + 1.
Proof.
  revert n. apply (Z_lt_induction (λ n, Z.of_nat (length (Py.digits 2 n))
                                        = Z.log2 n + 1)).
  intros n IH. destruct (decide (n < 2)) as [Hsmall|Hbig].
  - destruct (decide (n < 0)) as [Hneg|Hpos].
    + unfold Py.digits. rewrite Z.log2_nonpos by lia. simpl.
      by assert ((n <? 2) = true) as -> by lia.
    + rewrite digits_small by lia.
      assert (n = 0 ∨ n = 1) as [-> | ->] by lia; done.
  - assert (0 ≤ n / 2 < n)
      by (split; [apply Z.div_pos; lia|apply Z.div_lt; lia]).
    rewrite digits_step, length_app, Nat2Z.inj_add, IH by lia.
    change (Z.of_nat (length [Py.digit_char (n `mod` 2)])) with 1.
    rewrite <- (Z.pow_1_r 2) at 1. rewrite <- Z.shiftr_div_pow2 by lia.
    rewrite Z.log2_shiftr by lia.
    assert (1 ≤ Z.log2 n) by (apply Z.log2_le_pow2; lia). lia.
Qed.

Lemma digits_chars b n :
  2 ≤ b ≤ 10 → 0 ≤ n →
  Forall (λ c, ∃ d, Py.digit_val c = Some d ∧ d < b) (Py.digits b n).
Proof.
  intros Hb Hn. apply (parse_digits_chars b 0 _ n).
  by apply parse_digits_digits.
Qed.

Lemma digits_nonempty b n : 2 ≤ b ≤ 10 → 0 ≤ n → Py.digits b n ≠ [].
Proof.
  intros Hb Hn. destruct (decide (n < b)).
  - by rewrite digits_small by lia.
  - rewrite digits_step by lia. intros H%(f_equal length).
    rewrite length_app in H. simpl in H. lia.
Qed.

Lemma digits_head_nonzero b n :
  2 ≤ b ≤ 10 → 0 < n → head (Py.digits b n) ≠ Some "0".
Proof.
  intros Hb Hn. assert (0 ≤ n) as H0 by lia. revert Hn. pattern n.
  apply Z_lt_induction; [|exact H0]. clear n H0. intros n IH Hn.
  destruct (decide (n < b)).
  - rewrite digits_small by lia. simpl. intros [= Hc].
    pose proof (digit_val_char n ltac:(lia)) as Hv. rewrite Hc in Hv.
    vm_compute in Hv. injection Hv as <-. lia.
  - rewrite digits_step by lia.
    assert (0 < n / b) by (apply Z.div_str_pos; lia).
    specialize (IH (n / b) ltac:(split; [lia|apply Z.div_lt; lia]) ltac:(lia)).
    pose proof (digits_nonempty b (n / b) Hb ltac:(lia)).
    by destruct (Py.digits b (n / b)).
Qed.

Lemma split_nosep sep a : sep ∉ a → Py.split sep a = [a].
Proof.
  induction a as [|c a IH]; intros Hin; [done|].
  apply not_elem_of_cons in Hin as [Hc Ha]. simpl.
  rewrite bool_decide_eq_false_2 by congruence. by rewrite IH.
Qed.

Lemma split_app_sep sep a rest :
  sep ∉ a → Py.split sep (a ++ sep :: rest) = a :: Py.split sep rest.
Proof.
  induction a as [|c a IH]; intros Hin.
  - simpl. by rewrite bool_decide_eq_true_2.
  - apply not_elem_of_cons in Hin as [Hc Ha]. simpl.
    rewrite bool_decide_eq_false_2 by congruence. by rewrite IH.
Qed.

Lemma split_length sep s :
  length (Py.split sep s) = S (length (filter (λ c, c = sep) s)).
Proof.
  induction s as [|c s IH]; [done|]. simpl.
  destruct (bool_decide_reflect (c = sep)) as [->|Hc].
  - rewrite filter_cons_True by done. simpl. by rewrite IH.
  - rewrite filter_cons_False by done. rewrite <- IH.
    pose proof (split_nonempty sep s). by destruct (Py.split sep s).
Qed.

(** What [str] prints has digits only, after the sign. *)
Lemma str_chars n c :
  c ∈ Py.str n → c = "-" ∨ ∃ d, Py.digit_val c = Some d ∧ d < 10.
Proof.
  unfold Py.str. destruct (n <? 0) eqn:Hn.
  - intros [->|Hin]%elem_of_cons; [by left|right].
    pose proof (digits_chars 10 (- n) ltac:(lia) ltac:(lia)) as Hch.
    by apply (proj1 (Forall_forall _ _) Hch).
  - intros Hin. right.
    pose proof (digits_chars 10 n ltac:(lia) ltac:(lia)) as Hch.
    by apply (proj1 (Forall_forall _ _) Hch).
Qed.

(** [int] reads back what [str] prints. *)
Lemma int_str n : Py.int (Py.str n) 10 = Ret n.
Proof.
  destruct (decide (0 ≤ n)) as [Hn|Hn].
  - rewrite str_nonneg by done.
    apply int_of_digits; [lia|by apply parse_digits_digits|].
    by apply digits_nonempty.
  - unfold Py.str. assert ((n <? 0) = true) as -> by lia.
    pose proof (digits_chars 10 (- n) ltac:(lia) ltac:(lia)) as Hch.
    pose proof (digits_nonempty 10 (- n) ltac:(lia) ltac:(lia)) as Hne.
    assert (Forall (λ c, Py.isspace c = false) (Py.digits 10 (- n))) as Hsp.
    { eapply Forall_impl; [exact Hch|].
      intros c (d & Hd & _). by eapply digit_val_not_space. }
    unfold Py.int. rewrite strip_id by (by constructor).
    rewrite bool_decide_eq_true_2 by done. rewrite lstrip_id by done.
    assert (Py.skip_prefix 10 (Py.digits 10 (- n)) = Py.digits 10 (- n)) as ->.
    { unfold Py.skip_prefix. destruct (Py.digits 10 (- n)) as [|? [|? ?]]; try done.
      by rewrite andb_false_r. }
    pose proof (parse_digits_digits 10 ltac:(lia) (- n) ltac:(lia)) as Hp.
    destruct (Py.digits 10 (- n)); [done|]. rewrite Hp. f_equal. lia.
Qed.

(** ** [ip_to_bin] and [int(_, 2)] on integers of any size *)

Lemma part_bits v :
  0 ≤ v →
  Z.of_nat (length (pad_binary (drop 2 (Py.bin v)) 8)) = part_width v
  ∧ ∀ acc, Py.parse_digits 2 acc (pad_binary (drop 2 (Py.bin v)) 8)
           = Some (acc * 2 ^ part_width v + v).
Proof.
  intros Hv. rewrite bin_drop by done.
  assert (Z.of_nat (length (pad_binary (Py.digits 2 v) 8)) = part_width v) as Hlen.
  { unfold pad_binary, Py.rep, Py.len, part_width.
    rewrite length_app, length_replicate, Nat2Z.inj_add, <- digits2_length by done.
    lia. }
  split; [done|]. intros acc. rewrite parse_digits_acc, <- Hlen.
  unfold pad_binary, Py.rep. rewrite parse_digits_zeros by lia.
  cbn [Z.mul]. by rewrite parse_digits_digits by lia.
Qed.

Lemma parse_parts vs acc :
  Forall (λ v, 0 ≤ v) vs →
  Py.parse_digits 2 acc
    (concat ((λ v, pad_binary (drop 2 (Py.bin v)) 8) <$> vs))
  = Some (foldl (λ acc v, acc * 2 ^ part_width v + v) acc vs).
Proof.
  intros Hvs. revert acc. induction Hvs as [|v vs Hv _ IH]; intros acc; [done|].
  cbn [fmap list_fmap concat foldl]. rewrite parse_digits_app.
  destruct (part_bits v Hv) as [_ ->]. simpl. apply IH.
Qed.

Lemma parseIPv4_parts s vs :
  Forall2 (λ t v, Py.int t 10 = Ret v ∧ 0 ≤ v) (Py.split "." s) vs →
  parseIPv4 s = Ret (parts_value vs).
Proof.
  intros Hparts. unfold parseIPv4, ip_to_bin.
  rewrite (ip_to_bin_loop_ints _ _ vs)
    by (eapply Forall2_impl; [exact Hparts|by intros ?? [? _]]).
  cbn [bind app].
  assert (Forall (λ v, 0 ≤ v) vs) as Hnonneg.
  { clear -Hparts. induction Hparts as [|???? [_ ?]]; by constructor. }
  apply int_of_digits; [lia|by apply parse_parts|].
  inversion Hparts as [Heq|t v ts vs' [_ Hv] _ Heq]; subst.
  - symmetry in Heq. by apply split_nonempty in Heq.
  - cbn [fmap list_fmap concat]. destruct (part_bits v Hv) as [Hlen _].
    unfold part_width in Hlen.
    destruct (pad_binary (drop 2 (Py.bin v)) 8); [simpl in Hlen; lia|done].
Qed.

Lemma part_width_octet v : 0 ≤ v ≤ 255 → part_width v = 8.
Proof.
  intros Hv. unfold part_width. destruct (decide (v = 0)) as [->|]; [done|].
  assert (Z.log2 v < 8) by (apply Z.log2_lt_pow2; lia). lia.
Qed.

Lemma octets_range n :
  0 ≤ n < 4294967296 →
  0 ≤ n / 16777216 ≤ 255 ∧ 0 ≤ (n / 65536) `mod` 256 ≤ 255
  ∧ 0 ≤ (n / 256) `mod` 256 ≤ 255 ∧ 0 ≤ n `mod` 256 ≤ 255
  ∧ n = ((n / 16777216 * 256 + (n / 65536) `mod` 256) * 256
         + (n / 256) `mod` 256) * 256 + n `mod` 256.
Proof.
  intros Hn.
  pose proof (Z.div_mod n 256 ltac:(lia)).
  pose proof (Z.mod_pos_bound n 256 ltac:(lia)).
  pose proof (Z.div_mod (n / 256) 256 ltac:(lia)).
  pose proof (Z.mod_pos_bound (n / 256) 256 ltac:(lia)).
  pose proof (Z.div_mod (n / 65536) 256 ltac:(lia)).
  pose proof (Z.mod_pos_bound (n / 65536) 256 ltac:(lia)).
  assert (n / 256 / 256 = n / 65536) as E1 by (rewrite Z.div_div by lia; done).
  assert (n / 65536 / 256 = n / 16777216) as E2 by (rewrite Z.div_div by lia; done).
  rewrite E1 in *. rewrite E2 in *.
  assert (0 ≤ n / 16777216 < 256)
    by (split; [apply Z.div_pos; lia|apply Z.div_lt_upper_bound; lia]).
  lia.
Qed.

(** The text of four octets: how it splits, that it is canonical, and what
    it parses to. *)
Lemma dotted_of_octets v1 v2 v3 v4 :
  0 ≤ v1 ≤ 255 → 0 ≤ v2 ≤ 255 → 0 ≤ v3 ≤ 255 → 0 ≤ v4 ≤ 255 →
  let s := Py.join ["."] [Py.str v1; Py.str v2; Py.str v3; Py.str v4] in
  Py.split "." s = [Py.str v1; Py.str v2; Py.str v3; Py.str v4]
  ∧ canonical_dotted_decimal s = true
  ∧ parseIPv4 s = Ret (((v1 * 256 + v2) * 256 + v3) * 256 + v4).
Proof.
  intros H1 H2 H3 H4 s.
  assert (∀ v, "." ∉ Py.str v) as Hdot.
  { intros v [?|(d & Hd & _)]%str_chars; [done|]. by vm_compute in Hd. }
  assert (Py.split "." s = [Py.str v1; Py.str v2; Py.str v3; Py.str v4]) as Hs.
  { unfold s. cbn [Py.join]. cbn [app].
    by rewrite !split_app_sep, split_nosep by apply Hdot. }
  assert (∀ v, 0 ≤ v ≤ 255 → canonical_octet (Py.str v) = true) as Hcan.
  { intros v Hv. unfold canonical_octet, decimal_octet.
    rewrite str_nonneg by lia. rewrite parse_digits_digits by lia.
    rewrite !andb_true_iff, orb_true_iff, !bool_decide_eq_true, Z.leb_le.
    split_and!; [by apply digits_nonempty; lia|lia|].
    destruct (decide (v = 0)) as [->|]; [by right|].
    left. apply digits_head_nonzero; lia. }
  split; [done|]. split.
  - unfold canonical_dotted_decimal. rewrite Hs.
    by rewrite !Hcan by done.
  - rewrite (parseIPv4_parts s [v1; v2; v3; v4]).
    + unfold parts_value. cbn [foldl].
      rewrite !part_width_octet by done. f_equal; lia.
    + rewrite Hs. repeat constructor; try apply int_str; lia.
Qed.

Lemma int_to_ip_text n :
  0 ≤ n < 4294967296 →
  let s := Py.join ["."] (Py.str <$> octets n) in
  int_to_ip n = Ret s ∧ canonical_dotted_decimal s = true
  ∧ parseIPv4 s = Ret n.
Proof.
  intros Hn s. destruct (octets_range n Hn) as (H1 & H2 & H3 & H4 & Heq).
  destruct (dotted_of_octets _ _ _ _ H1 H2 H3 H4) as (_ & Hcan & Hparse).
  split; [by apply int_to_ip_spec|]. split; [done|].
  unfold s, octets. cbn [fmap list_fmap]. by rewrite Hparse, <- Heq.
Qed.

(** X1. [int_to_ip] always succeeds on a 32-bit integer: it prints the four
    octets, most significant first, in decimal and without leading zeros,
    and [ip_to_bin] followed by [int(_, 2)] reads the integer back. *)
Theorem int_to_ip_roundtrip n :
  0 ≤ n < 4294967296 →
  ∃ s, int_to_ip n = Ret s
       ∧ s = Py.join ["."] (Py.str <$> octets n)
       ∧ Forall (λ v, 0 ≤ v ≤ 255) (octets n)
       ∧ canonical_dotted_decimal s = true
       ∧ parseIPv4 s = Ret n.
Proof.
  intros Hn. destruct (int_to_ip_text n Hn) as (Hs & Hcan & Hparse).
  destruct (octets_range n Hn) as (H1 & H2 & H3 & H4 & _).
  eexists. split; [exact Hs|]. split; [done|]. split; [|done].
  unfold octets. repeat (apply Forall_cons; split; [done|]). constructor.
Qed.

Lemma int_to_ip_roundtrip_witness :
  ∃ s, int_to_ip 1747404800 = Ret s
       ∧ s = Py.join ["."] (Py.str <$> octets 1747404800)
       ∧ Forall (λ v, 0 ≤ v ≤ 255) (octets 1747404800)
       ∧ canonical_dotted_decimal s = true
       ∧ parseIPv4 s = Ret 1747404800.
Proof. apply (int_to_ip_roundtrip 1747404800). lia. Defined.

(** X2. [ip_to_bin] followed by [int(_, 2)] accepts any number of parts and
    any non-negative integers: every part is written in binary on 8
    characters, or on more when it is above 255, and the whole is read as
    one integer. With four parts of which the last three are octets the
    value is [v1 * 2^24 + v2 * 2^16 + v3 * 2^8 + v4], however large [v1]
    is. *)
Theorem parseIPv4_any_parts s vs :
  Forall2 (λ t v, Py.int t 10 = Ret v ∧ 0 ≤ v) (Py.split "." s) vs →
  parseIPv4 s = Ret (parts_value vs)
  ∧ (∀ v1 v2 v3 v4, vs = [v1; v2; v3; v4] →
       v2 ≤ 255 → v3 ≤ 255 → v4 ≤ 255 →
       parts_value vs = v1 * 16777216 + v2 * 65536 + v3 * 256 + v4)
  ∧ (Forall (λ v, v ≤ 255) vs →
     0 ≤ parts_value vs < 2 ^ (8 * Z.of_nat (length vs))).
Proof.
  intros Hparts. split; [by apply parseIPv4_parts|].
  assert (Forall (λ v, 0 ≤ v) vs) as Hnonneg.
  { clear -Hparts. induction Hparts as [|???? [_ ?]]; by constructor. }
  split.
  - intros v1 v2 v3 v4 -> H2 H3 H4.
    apply Forall_cons in Hnonneg as [? Hnonneg].
    apply Forall_cons in Hnonneg as [? Hnonneg].
    apply Forall_cons in Hnonneg as [? Hnonneg].
    apply Forall_cons in Hnonneg as [? _].
    unfold parts_value. cbn [foldl].
    rewrite (part_width_octet v2), (part_width_octet v3), (part_width_octet v4)
      by lia. lia.
  - intros Hsmall. unfold parts_value.
    assert (∀ acc (k : nat), 0 ≤ acc < 2 ^ (8 * Z.of_nat k) →
              0 ≤ foldl (λ acc v, acc * 2 ^ part_width v + v) acc vs
                < 2 ^ (8 * Z.of_nat (k + length vs))) as Hfold.
    { clear Hparts. induction vs as [|v vs IH]; intros acc k Hacc.
      - by rewrite Nat.add_0_r.
      - apply Forall_cons in Hnonneg as [? Hnonneg].
        apply Forall_cons in Hsmall as [? Hsmall].
        cbn [foldl length]. rewrite part_width_octet by lia.
        replace (k + S (length vs))%nat with (S k + length vs)%nat by lia.
        apply IH; [done..|].
        replace (8 * Z.of_nat (S k)) with (8 * Z.of_nat k + 8) by lia.
        rewrite Z.pow_add_r by lia. change (2 ^ 8) with 256. lia. }
    apply (Hfold 0 0%nat). simpl. lia.
Qed.

Lemma parseIPv4_any_parts_witness :
  parseIPv4 (pys "300.1.1.1") = Ret (parts_value [300; 1; 1; 1])
  ∧ parts_value [300; 1; 1; 1] = 300 * 16777216 + 1 * 65536 + 1 * 256 + 1.
Proof.
  destruct (parseIPv4_any_parts (pys "300.1.1.1") [300; 1; 1; 1])
    as (H1 & H2 & _).
  - repeat constructor; by vm_compute.
  - split; [exact H1|]. apply H2; [reflexivity|lia..].
Defined.

(** ** [bin_to_ip] and [int_to_ip] outside 32 bits *)

Lemma bin_to_ip_take w : bin_to_ip (take 32 w) = bin_to_ip w.
Proof.
  unfold bin_to_ip. cbn [bin_to_ip_loop].
  by rewrite !skipn_firstn_comm, !take_take.
Qed.

Lemma bin_to_ip_app w rest :
  (32 ≤ length w)%nat → bin_to_ip (w ++ rest) = bin_to_ip w.
Proof.
  intros Hlen. rewrite <- (bin_to_ip_take (w ++ rest)), <- (bin_to_ip_take w).
  by rewrite take_app_le by done.
Qed.

(** X3. [bin_to_ip] reads the first 32 characters and nothing else; on a
    string of 24 characters or fewer (the empty string among them) it raises
    [ValueError], because the last slice is empty. *)
Theorem bin_to_ip_slices w :
  bin_to_ip (take 32 w) = bin_to_ip w
  ∧ (∀ rest, (32 ≤ length w)%nat → bin_to_ip (w ++ rest) = bin_to_ip w)
  ∧ ((length w ≤ 24)%nat → bin_to_ip w = Raise ValueError).
Proof.
  split; [apply bin_to_ip_take|]. split.
  - intros rest Hlen. by apply bin_to_ip_app.
  - intros Hlen. unfold bin_to_ip. cbn [bin_to_ip_loop].
    rewrite (drop_ge w 24) by done. rewrite take_nil.
    destruct (Py.int (take 8 (drop 0 w)) 2) as [?|e] eqn:E1; cbn [bind];
      [|by apply int_raises_ValueError in E1 as ->].
    destruct (Py.int (take 8 (drop 8 w)) 2) as [?|e] eqn:E2; cbn [bind];
      [|by apply int_raises_ValueError in E2 as ->].
    destruct (Py.int (take 8 (drop 16 w)) 2) as [?|e] eqn:E3; cbn [bind];
      [|by apply int_raises_ValueError in E3 as ->].
    done.
Qed.

Lemma bin_to_ip_slices_witness :
  bin_to_ip (pys "000000010000001000000011") = Raise ValueError.
Proof.
  apply (proj2 (proj2 (bin_to_ip_slices (pys "000000010000001000000011")))).
  vm_compute. lia.
Defined.

Lemma digits2_shift (k : nat) m r :
  0 < m → 0 ≤ r < 2 ^ Z.of_nat k →
  ∃ tail, Py.digits 2 (m * 2 ^ Z.of_nat k + r) = Py.digits 2 m ++ tail
          ∧ length tail = k.
Proof.
  revert r. induction k as [|k IH]; intros r Hm Hr.
  - exists []. simpl in *. rewrite app_nil_r. split; [|done]. f_equal. lia.
  - rewrite Nat2Z.inj_succ, Z.pow_succ_r in * by lia.
    assert (0 < 2 ^ Z.of_nat k) by (apply Z.pow_pos_nonneg; lia).
    rewrite digits_step by nia.
    assert ((m * (2 * 2 ^ Z.of_nat k) + r) / 2 = m * 2 ^ Z.of_nat k + r / 2) as ->.
    { symmetry. apply Z.div_unique with (r `mod` 2).
      - left. apply Z.mod_pos_bound. lia.
      - pose proof (Z.div_mod r 2 ltac:(lia)). lia. }
    destruct (IH (r / 2)) as (tail & -> & Hlen); [done| |].
    { split; [apply Z.div_pos; lia|apply Z.div_lt_upper_bound; lia]. }
    eexists. rewrite <- app_assoc. split; [done|].
    rewrite length_app, Hlen. simpl. lia.
Qed.

(** X4. [int_to_ip] does not reject an integer of more than 32 bits: it
    prints its 32 most significant bits. *)
Theorem int_to_ip_truncates m (k : nat) r :
  2147483648 ≤ m < 4294967296 → 0 ≤ r < 2 ^ Z.of_nat k →
  int_to_ip (m * 2 ^ Z.of_nat k + r) = int_to_ip m.
Proof.
  intros Hm Hr. assert (0 < 2 ^ Z.of_nat k) by (apply Z.pow_pos_nonneg; lia).
  unfold int_to_ip. rewrite !bin_drop by nia.
  destruct (digits2_shift k m r ltac:(lia) Hr) as (tail & -> & Hlen).
  pose proof (digits2_length m ltac:(lia)) as Hlm.
  rewrite (Z.log2_unique m 31) in Hlm by (simpl; lia).
  assert (length (Py.digits 2 m) = 32%nat) as H32 by lia.
  unfold pad_binary, Py.rep, Py.len. rewrite length_app, H32.
  replace (Z.to_nat (32 - Z.of_nat (32 + length tail))) with 0%nat by lia.
  change (Z.to_nat (32 - Z.of_nat 32)) with 0%nat. cbn [replicate app].
  apply bin_to_ip_app. lia.
Qed.

Lemma int_to_ip_truncates_witness :
  int_to_ip (2231369730 * 2 ^ Z.of_nat 1 + 1) = int_to_ip 2231369730.
Proof. apply (int_to_ip_truncates 2231369730 1 1); simpl; lia. Defined.

(** ** More about [mask_ip] *)

Lemma testbit_above_32 x i :
  0 ≤ x < 4294967296 → 32 ≤ i → Z.testbit x i = false.
Proof.
  intros Hx Hi. destruct (decide (x = 0)) as [->|]; [apply Z.bits_0|].
  apply Z.bits_above_log2; [lia|].
  assert (Z.log2 x < 32) by (apply Z.log2_lt_pow2; simpl; lia). lia.
Qed.

(** Masking clears the low [32 - p] bits. *)
Lemma land_netmask x p :
  0 ≤ x < 4294967296 → 0 ≤ p ≤ 32 →
  Z.land x (netmask p) = x - x `mod` 2 ^ (32 - p).
Proof.
  intros Hx Hp.
  assert (x - x `mod` 2 ^ (32 - p) = Z.shiftl (Z.shiftr x (32 - p)) (32 - p)) as ->.
  { rewrite Z.shiftl_mul_pow2, Z.shiftr_div_pow2 by lia.
    pose proof (Z.div_mod x (2 ^ (32 - p))
                  ltac:(apply Z.pow_nonzero; lia)). lia. }
  apply Z.bits_inj'. intros i Hi.
  rewrite Z.land_spec, netmask_testbit by lia.
  destruct (Z.leb_spec (32 - p) i).
  - rewrite Z.shiftl_spec, Z.shiftr_spec by lia.
    replace (i - (32 - p) + (32 - p)) with i by lia.
    destruct (Z.ltb_spec i 32); [by rewrite andb_true_r|].
    rewrite testbit_above_32 by lia. done.
  - rewrite Z.shiftl_spec_low by lia. by rewrite andb_false_r.
Qed.

Lemma subnet_value p :
  0 ≤ p ≤ 32 → Z.lxor 4294967295 (netmask p) = 2 ^ (32 - p) - 1.
Proof.
  intros Hp. rewrite Z.sub_1_r, <- Z.ones_equiv.
  apply Z.bits_inj'. intros i Hi. change 4294967295 with (Z.ones 32).
  rewrite Z.lxor_spec, !Z.testbit_ones, netmask_testbit by lia.
  destruct (Z.leb_spec 0 i), (Z.ltb_spec i 32), (Z.leb_spec (32 - p) i),
    (Z.ltb_spec i (32 - p)); simpl; lia.
Qed.

(** The two bounds as integers. *)
Lemma mask_ip_ints ip addr p :
  parseIPv4 ip = Ret addr → 0 ≤ addr < 4294967296 → 0 ≤ p ≤ 32 →
  let lower := addr - addr `mod` 2 ^ (32 - p) in
  let upper := lower + 2 ^ (32 - p) - 1 in
  0 ≤ lower ∧ upper < 4294967296
  ∧ mask_ip ip (Some p)
    = Ret (Py.join ["."] (Py.str <$> octets lower),
           Py.join ["."] (Py.str <$> octets upper)).
Proof.
  intros Hparse Haddr Hp lower upper.
  destruct (mask_ip_bounds addr p ltac:(lia) Hp) as (_ & _ & Hlo & Hhi).
  rewrite subnet_value, land_netmask in Hhi by done.
  rewrite land_netmask in Hlo by done. fold lower in Hlo, Hhi.
  assert (lower + (2 ^ (32 - p) - 1) = upper) as Hup by (unfold upper; lia).
  rewrite Hup in Hhi. split; [lia|]. split; [lia|].
  rewrite (mask_ip_some _ _ _ Hparse) by lia. cbv zeta.
  rewrite <- netmask_value, subnet_value, land_netmask by done.
  fold lower. rewrite Hup.
  by rewrite !int_to_ip_spec by lia.
Qed.

(** X5. For an IPv4 address and a prefix length in [[0,32]] the two strings
    that [mask_ip] returns are canonical dotted-decimal addresses; read as
    integers, the lower bound is a multiple of [2^(32-p)], the range holds
    [2^(32-p)] addresses, and the address given lies in it. *)
Theorem mask_ip_block ip addr p :
  parseIPv4 ip = Ret addr → 0 ≤ addr < 4294967296 → 0 ≤ p ≤ 32 →
  ∃ lower_str upper_str lower upper,
    mask_ip ip (Some p) = Ret (lower_str, upper_str)
    ∧ canonical_dotted_decimal lower_str = true
    ∧ canonical_dotted_decimal upper_str = true
    ∧ parseIPv4 lower_str = Ret lower ∧ parseIPv4 upper_str = Ret upper
    ∧ lower ≤ addr ≤ upper
    ∧ upper - lower + 1 = 2 ^ (32 - p)
    ∧ lower `mod` 2 ^ (32 - p) = 0.
Proof.
  intros Hparse Haddr Hp.
  destruct (mask_ip_ints ip addr p Hparse Haddr Hp) as (Hlo & Hhi & Hmask).
  assert (0 < 2 ^ (32 - p)) as Hpow by (apply Z.pow_pos_nonneg; lia).
  pose proof (Z.mod_pos_bound addr (2 ^ (32 - p)) Hpow) as Hmod.
  set (lower := addr - addr `mod` 2 ^ (32 - p)) in *.
  set (upper := lower + 2 ^ (32 - p) - 1) in *.
  destruct (int_to_ip_text lower ltac:(lia)) as (_ & Hcl & Hpl).
  destruct (int_to_ip_text upper ltac:(lia)) as (_ & Hcu & Hpu).
  eexists _, _, lower, upper. split; [exact Hmask|].
  split_and!; [done|done|done|done|lia|lia|lia|].
  unfold lower. pose proof (Z.div_mod addr (2 ^ (32 - p)) ltac:(lia)).
  replace (addr - addr `mod` 2 ^ (32 - p))
    with (addr `div` 2 ^ (32 - p) * 2 ^ (32 - p)) by lia.
  apply Z.mod_mul. lia.
Qed.

Lemma mask_ip_block_witness :
  ∃ lower_str upper_str lower upper,
    mask_ip (pys "104.39.73.7") (Some 22) = Ret (lower_str, upper_str)
    ∧ canonical_dotted_decimal lower_str = true
    ∧ canonical_dotted_decimal upper_str = true
    ∧ parseIPv4 lower_str = Ret lower ∧ parseIPv4 upper_str = Ret upper
    ∧ lower ≤ 1747405063 ≤ upper
    ∧ upper - lower + 1 = 2 ^ (32 - 22)
    ∧ lower `mod` 2 ^ (32 - 22) = 0.
Proof.
  apply (mask_ip_block (pys "104.39.73.7") 1747405063 22);
    [by vm_compute|lia|lia].
Defined.

(** X6. Two addresses with the same first [p] bits have the same range, and
    the range of either bound is the range again. *)
Theorem mask_ip_same_block ip ip' addr addr' p :
  parseIPv4 ip = Ret addr → 0 ≤ addr < 4294967296 →
  parseIPv4 ip' = Ret addr' → 0 ≤ addr' < 4294967296 →
  0 ≤ p ≤ 32 →
  addr / 2 ^ (32 - p) = addr' / 2 ^ (32 - p) →
  mask_ip ip' (Some p) = mask_ip ip (Some p)
  ∧ ∀ lower_str upper_str,
      mask_ip ip (Some p) = Ret (lower_str, upper_str) →
      mask_ip lower_str (Some p) = Ret (lower_str, upper_str)
      ∧ mask_ip upper_str (Some p) = Ret (lower_str, upper_str).
Proof.
  intros Hparse Haddr Hparse' Haddr' Hp Hsame.
  assert (0 < 2 ^ (32 - p)) as Hpow by (apply Z.pow_pos_nonneg; lia).
  assert (∀ x y, x / 2 ^ (32 - p) = y / 2 ^ (32 - p) →
                 x - x `mod` 2 ^ (32 - p) = y - y `mod` 2 ^ (32 - p)) as Hlow.
  { intros x y Hxy.
    pose proof (Z.div_mod x (2 ^ (32 - p)) ltac:(lia)).
    pose proof (Z.div_mod y (2 ^ (32 - p)) ltac:(lia)).
    rewrite Hxy in *. lia. }
  destruct (mask_ip_ints ip addr p Hparse Haddr Hp) as (Hlo & Hhi & Hmask).
  destruct (mask_ip_ints ip' addr' p Hparse' Haddr' Hp) as (_ & _ & Hmask').
  cbv zeta in Hmask'. rewrite <- (Hlow _ _ Hsame) in Hmask'.
  split; [by rewrite Hmask, Hmask'|].
  intros lower_str upper_str Hres. rewrite Hmask in Hres.
  injection Hres as <- <-.
  pose proof (Z.mod_pos_bound addr (2 ^ (32 - p)) Hpow) as Hmod.
  pose proof (Z.div_mod addr (2 ^ (32 - p)) ltac:(lia)) as Hdm.
  set (q := addr / 2 ^ (32 - p)) in *.
  set (lower := addr - addr `mod` 2 ^ (32 - p)) in *.
  set (upper := lower + 2 ^ (32 - p) - 1) in *.
  assert (lower = q * 2 ^ (32 - p)) as Hlq by (unfold lower; lia).
  destruct (int_to_ip_text lower ltac:(lia)) as (_ & _ & Hpl).
  destruct (int_to_ip_text upper ltac:(lia)) as (_ & _ & Hpu).
  destruct (mask_ip_ints _ lower p Hpl ltac:(lia) Hp) as (_ & _ & Hml).
  destruct (mask_ip_ints _ upper p Hpu ltac:(lia) Hp) as (_ & _ & Hmu).
  cbv zeta in Hml, Hmu.
  assert (lower `mod` 2 ^ (32 - p) = 0) as Hl0
    by (rewrite Hlq; apply Z.mod_mul; lia).
  assert (upper `mod` 2 ^ (32 - p) = 2 ^ (32 - p) - 1) as Hu0.
  { symmetry. apply Z.mod_unique_pos with (q := q); [lia|].
    unfold upper. lia. }
  rewrite Hl0, Z.sub_0_r in Hml. rewrite Hu0 in Hmu.
  replace (upper - (2 ^ (32 - p) - 1)) with lower in Hmu by (unfold upper; lia).
  done.
Qed.

Lemma mask_ip_same_block_witness :
  mask_ip (pys "104.39.75.255") (Some 22) = mask_ip (pys "104.39.72.0") (Some 22).
Proof.
  destruct (mask_ip_same_block (pys "104.39.72.0") (pys "104.39.75.255")
              1747404800 1747405823 22) as [H _];
    [by vm_compute|lia|by vm_compute|lia|lia|by vm_compute|exact H].
Defined.

(** X7. The call with one string in CIDR notation is the call with two
    arguments: the text before the slash and the integer after it, whatever
    the integer. *)
Theorem mask_ip_cidr ip p :
  "/" ∉ ip →
  mask_ip (ip ++ "/" :: Py.str p) None = mask_ip ip (Some p).
Proof.
  intros Hip. unfold mask_ip.
  assert ("/" ∉ Py.str p) as Hp.
  { intros [?|(d & Hd & _)]%str_chars; [done|]. by vm_compute in Hd. }
  rewrite split_app_sep, split_nosep by done.
  by rewrite int_str.
Qed.

Lemma mask_ip_cidr_witness :
  mask_ip (pys "104.39.72.0" ++ "/" :: Py.str 22) None
  = mask_ip (pys "104.39.72.0") (Some 22).
Proof.
  apply (mask_ip_cidr (pys "104.39.72.0") 22).
  apply (bool_decide_unpack _). by vm_compute.
Defined.

Lemma int_to_ip_raises n e : int_to_ip n = Raise e → e = ValueError.
Proof.
  unfold int_to_ip, bin_to_ip. cbn [bin_to_ip_loop].
  intros H. repeat match type of H with
  | context [Py.int ?s 2] =>
      let E := fresh in
      destruct (Py.int s 2) eqn:E; cbn [bind] in H;
      [|apply int_raises_ValueError in E; congruence]
  end. done.
Qed.

Lemma mask_ip_some_raises ip p e :
  32 - 2 ^ 63 < p < 2 ^ 63 → mask_ip ip (Some p) = Raise e → e = ValueError.
Proof.
  intros Hp. unfold mask_ip. cbn [bind fst snd]. intros Hb.
  destruct (ip_to_bin ip) as [ip_bin|e1] eqn:E1; cbn [bind] in Hb.
  2:{ injection Hb as <-. unfold ip_to_bin in E1.
      by apply ip_to_bin_loop_raise in E1 as [-> _]. }
  destruct (Py.int ip_bin 2) as [ip_int|e2] eqn:E2; cbn [bind] in Hb;
    [|apply int_raises_ValueError in E2; congruence].
  rewrite !repeat_fits in Hb by lia. cbn [bind] in Hb.
  destruct (Py.int _ 2) as [mask_int|e3] eqn:E3 in Hb; cbn [bind] in Hb;
    [|apply int_raises_ValueError in E3; congruence].
  destruct (int_to_ip (Z.land ip_int mask_int)) as [l|e4] eqn:E4;
    cbn [bind] in Hb; [|apply int_to_ip_raises in E4; congruence].
  destruct (int_to_ip _) as [u|e5] eqn:E5 in Hb; cbn [bind] in Hb;
    [done|apply int_to_ip_raises in E5; congruence].
Qed.

Lemma mask_ip_none ip prefix_len_str s p :
  Py.split "/" s = [ip; prefix_len_str] → Py.int prefix_len_str 10 = Ret p →
  mask_ip s None = mask_ip ip (Some p).
Proof. intros Hs Hp. unfold mask_ip. by rewrite Hs, Hp. Qed.

(** X8. With a single string [mask_ip] raises [ValueError] unless the string
    has exactly one slash, and also when the text after the slash is not an
    integer. With a prefix length of at most 65536 in absolute value, given
    as an integer or after the slash, [ValueError] is the only exception it
    raises. A prefix length after the slash that does not fit an index-sized
    integer makes the repetition of line 187 raise [OverflowError], when the
    text before the slash is an address. *)
Theorem mask_ip_errors s :
  (length (filter (λ c, c = "/") s) ≠ 1%nat → mask_ip s None = Raise ValueError)
  ∧ (∀ ip prefix_len_str,
       s = ip ++ "/" :: prefix_len_str → "/" ∉ ip → "/" ∉ prefix_len_str →
       Py.int prefix_len_str 10 = Raise ValueError →
       mask_ip s None = Raise ValueError)
  ∧ (∀ p e, - 65536 ≤ p ≤ 65536 →
            mask_ip s (Some p) = Raise e → e = ValueError)
  ∧ (∀ ip prefix_len_str p e,
       Py.split "/" s = [ip; prefix_len_str] →
       Py.int prefix_len_str 10 = Ret p → - 65536 ≤ p ≤ 65536 →
       mask_ip s None = Raise e → e = ValueError)
  ∧ (∀ ip addr p,
       s = ip ++ "/" :: Py.str p → "/" ∉ ip → parseIPv4 ip = Ret addr →
       p ≤ 32 - 2 ^ 63 ∨ 2 ^ 63 ≤ p →
       mask_ip s None = Raise OverflowError).
Proof.
  split_and!.
  - intros Hcount. unfold mask_ip.
    pose proof (split_length "/" s) as Hlen.
    destruct (Py.split "/" s) as [|a [|b [|c l]]]; try done.
    simpl in Hlen. lia.
  - intros ip prefix_len_str -> Hip Hpl Hint. unfold mask_ip.
    rewrite split_app_sep, split_nosep by done. by rewrite Hint.
  - intros p e Hp. apply mask_ip_some_raises. lia.
  - intros ip prefix_len_str p e Hs Hint Hp.
    rewrite (mask_ip_none _ _ _ _ Hs Hint). apply mask_ip_some_raises. lia.
  - intros ip addr p -> Hip Hparse Hp.
    assert ("/" ∉ Py.str p) as Hstr.
    { intros [?|(d & Hd & _)]%str_chars; [done|]. by vm_compute in Hd. }
    rewrite (mask_ip_none ip (Py.str p) _ p).
    + by eapply mask_ip_overflow.
    + by rewrite split_app_sep, split_nosep.
    + apply int_str.
Qed.

Lemma mask_ip_errors_witness :
  mask_ip (pys "104.39.72.0") None = Raise ValueError
  ∧ mask_ip (pys "104.39.72.0/x") None = Raise ValueError
  ∧ mask_ip (pys "104.39.72.x") (Some 22) = Raise ValueError
  ∧ (∀ e, mask_ip (pys "104.39.72.x") (Some 22) = Raise e → e = ValueError)
  ∧ mask_ip (pys "104.39.72.x/22") None = Raise ValueError
  ∧ (∀ e, mask_ip (pys "104.39.72.x/22") None = Raise e → e = ValueError)
  ∧ mask_ip (pys "10.0.0.5/18446744073709551616") None = Raise OverflowError.
Proof.
  split_and!.
  - apply (proj1 (mask_ip_errors (pys "104.39.72.0"))). by vm_compute.
  - apply (proj1 (proj2 (mask_ip_errors (pys "104.39.72.0/x")))
             (pys "104.39.72.0") (pys "x")).
    + reflexivity.
    + apply (bool_decide_unpack _). by vm_compute.
    + apply (bool_decide_unpack _). by vm_compute.
    + by vm_compute.
  - by vm_compute.
  - intros e.
    apply (proj1 (proj2 (proj2 (mask_ip_errors (pys "104.39.72.x")))) 22).
    lia.
  - by vm_compute.
  - intros e.
    apply (proj1 (proj2 (proj2 (proj2 (mask_ip_errors (pys "104.39.72.x/22")))))
             (pys "104.39.72.x") (pys "22") 22);
      [by vm_compute|by vm_compute|lia].
  - apply (proj2 (proj2 (proj2 (proj2
             (mask_ip_errors (pys "10.0.0.5/18446744073709551616")))))
             (pys "10.0.0.5") 167772165 (2 ^ 64)).
    + by vm_compute.
    + apply (bool_decide_unpack _). by vm_compute.
    + by vm_compute.
    + lia.
Defined.

(** ** More about the ARP table *)

Lemma arp_put_lookup table lines ip :
  is_Some (foldl arp_put table lines !! ip) ↔
  is_Some (table !! ip) ∨ ∃ line e, line ∈ lines ∧ arp_row line = Some (ip, e).
Proof.
  revert table. induction lines as [|l lines IH]; intros table.
  - simpl. split; [by left|]. intros [?|(? & ? & []%elem_of_nil & _)]. done.
  - cbn [foldl]. rewrite IH. unfold arp_put.
    destruct (arp_row l) as [[ip' e']|] eqn:Hrow.
    + destruct (decide (ip' = ip)) as [->|Hne].
      * rewrite lookup_insert_eq. split; [intros _|by left; eexists].
        right. exists l, e'. split; [by left|done].
      * rewrite lookup_insert_ne by done. split.
        -- intros [?|(line & e & Hin & Hr)]; [by left|].
           right. exists line, e. split; [by right|done].
        -- intros [?|(line & e & [->|Hin]%elem_of_cons & Hr)]; [by left| |].
           ++ congruence.
           ++ right. by exists line, e.
    + split.
      * intros [?|(line & e & Hin & Hr)]; [by left|].
        right. exists line, e. split; [by right|done].
      * intros [?|(line & e & [->|Hin]%elem_of_cons & Hr)]; [by left| |].
        -- congruence.
        -- right. by exists line, e.
Qed.

Lemma arp_put_size table lines :
  (size (foldl arp_put table lines) ≤ size table + length lines)%nat.
Proof.
  revert table. induction lines as [|l lines IH]; intros table; [simpl; lia|].
  cbn [foldl length]. etrans; [apply IH|]. unfold arp_put.
  destruct (arp_row l) as [[ip e]|]; [|lia].
  rewrite map_size_insert. destruct (table !! ip); simpl; lia.
Qed.

(** X9. A readable file gives a table whose keys are exactly the first
    fields of the kept lines after the header, so it has no more entries
    than the file has lines after the first; a file with at most one line
    gives the empty table. When the file cannot be read the exception of
    [open] leaves [get_arp_table]: no table is returned. *)
Theorem arp_table_keys env proc_path :
  (∀ arp_file, read_file env proc_path = Ret arp_file →
     ∃ table, get_arp_table env proc_path = Ret table
       ∧ (∀ ip, is_Some (table !! ip) ↔
                ∃ line e, line ∈ drop 1 (Py.readlines arp_file)
                          ∧ arp_row line = Some (ip, e))
       ∧ (size table ≤ length (Py.readlines arp_file) - 1)%nat
       ∧ ((length (Py.readlines arp_file) ≤ 1)%nat → table = ∅))
  ∧ (∀ e, read_file env proc_path = Raise e →
          get_arp_table env proc_path = Raise e).
Proof.
  unfold get_arp_table. split.
  - intros arp_file ->. cbn [bind]. rewrite arp_loop_header.
    eexists. split; [done|]. split_and!.
    + intros ip. rewrite arp_put_lookup, lookup_empty. split.
      * by intros [[? [=]]|?].
      * by right.
    + etrans; [apply arp_put_size|]. rewrite map_size_empty, length_drop. lia.
    + intros Hlen. by destruct (Py.readlines arp_file) as [|? [|? ?]];
        [..|simpl in Hlen; lia].
  - by intros e ->.
Qed.

Lemma arp_table_keys_witness :
  ∃ table,
    get_arp_table
      {| path_defined := true; find_executable := λ _, None;
         check_output := λ _, Raise OSError;
         gethostbyname := λ _, Raise SocketError;
         read_file := λ _, Ret proc_net_arp |} (pys "/proc/net/arp")
    = Ret table
    ∧ (size table ≤ length (Py.readlines proc_net_arp) - 1)%nat.
Proof.
  destruct (proj1 (arp_table_keys
              {| path_defined := true; find_executable := λ _, None;
                 check_output := λ _, Raise OSError;
                 gethostbyname := λ _, Raise SocketError;
                 read_file := λ _, Ret proc_net_arp |} (pys "/proc/net/arp"))
              proc_net_arp eq_refl) as (table & H1 & _ & H2 & _).
  exists table. split; [exact H1|exact H2].
Defined.

(** X10. [get_mac_from_ip] reads [/proc/net/arp]: for an address that is the
    first field of no kept line it returns [None]; otherwise it returns the
    MAC of the last kept line for that address, in upper case; and when the
    file cannot be read it raises the exception of [open]. *)
Theorem get_mac_from_ip_lookup env ip :
  (∀ arp_file, read_file env (pys "/proc/net/arp") = Ret arp_file →
     ((∀ line e, line ∈ drop 1 (Py.readlines arp_file) →
                 arp_row line ≠ Some (ip, e)) →
      get_mac_from_ip env ip = Ret None)
     ∧ (∀ pre line post hwtype flags mac mask interface hw fl,
          drop 1 (Py.readlines arp_file) = pre ++ line :: post →
          Py.split_ws line = [ip; hwtype; flags; mac; mask; interface] →
          Py.int hwtype 16 = Ret hw → Py.int flags 16 = Ret fl →
          Forall (λ l, ∀ e, arp_row l ≠ Some (ip, e)) post →
          get_mac_from_ip env ip = Ret (Some (VStr (Py.upper mac)))))
  ∧ (∀ e, read_file env (pys "/proc/net/arp") = Raise e →
          get_mac_from_ip env ip = Raise e).
Proof.
  unfold get_mac_from_ip, get_arp_table. split.
  - intros arp_file ->. cbn [bind]. rewrite arp_loop_header. cbn [bind]. split.
    + intros Hnone.
      destruct (foldl arp_put ∅ (drop 1 (Py.readlines arp_file)) !! ip)
        as [entry|] eqn:Hl; [|done].
      assert (is_Some (foldl arp_put ∅ (drop 1 (Py.readlines arp_file)) !! ip))
        as Hsome by (by eexists).
      apply arp_put_lookup in Hsome as [[? Hempty]|(line & e & Hin & Hrow)].
      * by rewrite lookup_empty in Hempty.
      * by apply Hnone in Hrow.
    + intros pre line post hwtype flags mac mask interface hw fl
        Hlines Hsplit Hhw Hfl Hpost.
      rewrite Hlines.
      rewrite (arp_put_last ∅ pre line post ip
                 (arp_entry ip hw fl (Py.upper mac) mask interface)); [|  |done].
      * destruct (arp_entry_lookup ip hw fl (Py.upper mac) mask interface)
          as (_ & _ & _ & Hmac & _).
        f_equal; exact Hmac.
      * unfold arp_row. by rewrite Hsplit, Hhw, Hfl.
  - by intros e ->.
Qed.

Lemma get_mac_from_ip_lookup_witness :
  get_mac_from_ip
    {| path_defined := true; find_executable := λ _, None;
       check_output := λ _, Raise OSError;
       gethostbyname := λ _, Raise SocketError;
       read_file := λ _, Ret proc_net_arp |} (pys "10.0.0.5")
  = Ret (Some (VStr (Py.upper (pys "aa:bb:cc:dd:ee:ff")))).
Proof.
  apply (proj2 (proj1 (get_mac_from_ip_lookup
                  {| path_defined := true; find_executable := λ _, None;
                     check_output := λ _, Raise OSError;
                     gethostbyname := λ _, Raise SocketError;
                     read_file := λ _, Ret proc_net_arp |} (pys "10.0.0.5"))
                  proc_net_arp eq_refl)
           [] (pys "10.0.0.5 0x1 0x2 aa:bb:cc:dd:ee:ff * eth0" ++ nl) []
           (pys "0x1") (pys "0x2") (pys "aa:bb:cc:dd:ee:ff") (pys "*")
           (pys "eth0") 1 2);
    [by vm_compute|by vm_compute|by vm_compute|by vm_compute|constructor].
Defined.

(** ** More about the default route *)

Lemma split_ws_go_fields cur s f :
  Forall (λ c, Py.isspace c = false) cur →
  f ∈ Py.split_ws_go cur s →
  f ≠ [] ∧ Forall (λ c, Py.isspace c = false) f.
Proof.
  revert cur. induction s as [|c s IH]; intros cur Hcur; simpl.
  - destruct cur as [|c0 cur]; [by intros ?%elem_of_nil|].
    intros ->%list_elem_of_singleton. split.
    + intros H%(f_equal length). rewrite length_reverse in H. done.
    + by apply Forall_reverse.
  - destruct (Py.isspace c) eqn:Hc.
    + destruct cur as [|c0 cur]; [by apply IH|].
      intros [->|Hin]%elem_of_cons; [|apply (IH []); [constructor|done]].
      split.
      * intros H%(f_equal length). rewrite length_reverse in H. done.
      * by apply Forall_reverse.
    + apply IH. by constructor.
Qed.

Lemma split_ws_fields s f :
  f ∈ Py.split_ws s → f ≠ [] ∧ Forall (λ c, Py.isspace c = false) f.
Proof. by apply split_ws_go_fields. Qed.

(** X11. [get_default_route] returns both values or none: either the
    interface and the gateway are [None], or both are words of [ip route
    show], not empty and without whitespace. *)
Theorem default_route_both_or_none env interface ip :
  get_default_route env = Ret (interface, ip) →
  (interface = None ∧ ip = None)
  ∨ (∃ i g, interface = Some i ∧ ip = Some g
            ∧ i ≠ [] ∧ Forall (λ c, Py.isspace c = false) i
            ∧ g ≠ [] ∧ Forall (λ c, Py.isspace c = false) g).
Proof.
  unfold get_default_route, parse_default_route.
  destruct (check_output env _) as [output|e].
  2:{ destruct (is_command_failure e); [|done]. intros [= <- <-]. by left. }
  intros [= Hres]. revert Hres.
  induction (Py.splitlines output) as [|line lines IH].
  - intros [= <- <-]. by left.
  - rewrite route_loop_step. destruct (is_default_route line) eqn:Hd; [|done].
    intros [= <- <-]. right. unfold is_default_route in Hd.
    rewrite !andb_true_iff, !bool_decide_eq_true in Hd.
    destruct Hd as [[[Hlen _] _] _].
    destruct (lookup_lt_is_Some_2 (Py.split_ws line) 4) as [i Hi]; [lia|].
    destruct (lookup_lt_is_Some_2 (Py.split_ws line) 2) as [g Hg]; [lia|].
    exists i, g. rewrite Hi, Hg.
    destruct (split_ws_fields line i) as [? ?];
      [by eapply list_elem_of_lookup_2|].
    destruct (split_ws_fields line g) as [? ?];
      [by eapply list_elem_of_lookup_2|].
    done.
Qed.

Lemma default_route_both_or_none_witness :
  (Some (pys "wlan0") = None ∧ Some (pys "10.21.160.1") = None)
  ∨ (∃ i g, Some (pys "wlan0") = Some i ∧ Some (pys "10.21.160.1") = Some g
            ∧ i ≠ [] ∧ Forall (λ c, Py.isspace c = false) i
            ∧ g ≠ [] ∧ Forall (λ c, Py.isspace c = false) g).
Proof.
  apply (default_route_both_or_none
           {| path_defined := true; find_executable := λ _, None;
              check_output := λ _, Ret ip_route_show;
              gethostbyname := λ _, Raise SocketError;
              read_file := λ _, Raise IOError |}).
  by vm_compute.
Defined.

(** ** More about [dig_ip] *)

Lemma splitlines_go_char c cur s :
  c ≠ "010" → c ≠ "013" →
  Py.splitlines_go cur (c :: s) = Py.splitlines_go (c :: cur) s.
Proof. by destruct c as [[] [] [] [] [] [] [] []]. Qed.

Lemma splitlines_go_cr cur s :
  ∃ rest, Py.splitlines_go cur ("013" :: s) = reverse cur :: rest.
Proof.
  destruct s as [|c s]; [by eexists|].
  destruct c as [[] [] [] [] [] [] [] []]; by eexists.
Qed.

Lemma splitlines_go_nonempty cur s :
  cur ≠ [] ∨ s ≠ [] → Py.splitlines_go cur s ≠ [].
Proof.
  revert cur. induction s as [|c s IH]; intros cur H.
  - destruct H as [H|H]; [|done]. simpl. by destruct cur.
  - destruct (decide (c = "010")) as [->|Hlf]; [done|].
    destruct (decide (c = "013")) as [->|Hcr].
    + by destruct (splitlines_go_cr cur s) as [rest ->].
    + rewrite splitlines_go_char by done. apply IH. by left.
Qed.

Lemma splitlines_go_first cur first rest :
  Forall (λ c, c ≠ "010" ∧ c ≠ "013") first →
  Py.splitlines_go cur (first ++ "010" :: rest)
  = (reverse cur ++ first) :: Py.splitlines_go [] rest.
Proof.
  intros H. revert cur. induction H as [|c first [Hlf Hcr] _ IH]; intros cur.
  - by rewrite app_nil_r.
  - cbn [app]. rewrite splitlines_go_char, IH by done.
    by rewrite reverse_cons, <- app_assoc.
Qed.

Lemma lstrip_head s c : head (Py.lstrip s) = Some c → Py.isspace c = false.
Proof.
  induction s as [|c0 s IH]; [done|]. simpl.
  destruct (Py.isspace c0) eqn:Hc0; [done|]. simpl. by intros [= <-].
Qed.

Lemma lstrip_suffix s : ∃ t, s = t ++ Py.lstrip s.
Proof.
  induction s as [|c0 s [t IH]]; [by exists []|]. simpl.
  destruct (Py.isspace c0); [|by exists []].
  exists (c0 :: t). simpl. by rewrite <- IH.
Qed.

Lemma strip_ends s :
  (∀ c, head (Py.strip s) = Some c → Py.isspace c = false)
  ∧ (∀ c, last (Py.strip s) = Some c → Py.isspace c = false).
Proof.
  unfold Py.strip, Py.rstrip. split; intros c.
  - destruct (lstrip_suffix (reverse (Py.lstrip s))) as [t Ht].
    apply (f_equal reverse) in Ht. rewrite reverse_involutive, reverse_app in Ht.
    intros Hc. apply (lstrip_head s). rewrite Ht.
    by destruct (reverse (Py.lstrip (reverse (Py.lstrip s)))).
  - rewrite last_reverse. apply lstrip_head.
Qed.

(** X12. When [dig] runs, [dig_ip] returns [None] only if the output is
    empty. Otherwise it returns the first line of the output, stripped of
    the whitespace at both ends, whatever follows; the string can be empty
    when the first line is blank. *)
Theorem dig_ip_first_line env domain output :
  check_output env [choose_cmd env (pys "dig") (pys "/usr/bin/dig");
                    pys "+short"; pys "+time=1"; pys "+tries=2"; domain]
  = Ret output →
  (output = [] → dig_ip env domain = Ret None)
  ∧ (output ≠ [] → ∃ ip, dig_ip env domain = Ret (Some ip))
  ∧ (∀ first rest,
       Forall (λ c, c ≠ "010" ∧ c ≠ "013") first →
       output = first ++ "010" :: rest →
       dig_ip env domain = Ret (Some (Py.strip first)))
  ∧ (∀ ip, dig_ip env domain = Ret (Some ip) →
       (∀ c, head ip = Some c → Py.isspace c = false)
       ∧ (∀ c, last ip = Some c → Py.isspace c = false)).
Proof.
  intros Hrun. unfold dig_ip. rewrite Hrun. split_and!.
  - by intros ->.
  - intros Hne.
    pose proof (splitlines_go_nonempty [] output (or_intror Hne)) as Hl.
    fold (Py.splitlines output) in Hl.
    destruct (Py.splitlines output); [done|by eexists].
  - intros first rest Hfirst ->. unfold Py.splitlines.
    by rewrite splitlines_go_first.
  - intros ip. destruct (Py.splitlines output) as [|line ?]; [done|].
    intros [= <-]. apply strip_ends.
Qed.

Lemma dig_ip_first_line_witness :
  dig_ip {| path_defined := true; find_executable := λ _, None;
            check_output := λ _, Ret (pys " 93.184.216.34 " ++ nl ++ pys "x");
            gethostbyname := λ _, Raise SocketError;
            read_file := λ _, Raise IOError |} (pys "example.org")
  = Ret (Some (Py.strip (pys " 93.184.216.34 "))).
Proof.
  apply (proj1 (proj2 (proj2 (dig_ip_first_line
           {| path_defined := true; find_executable := λ _, None;
              check_output := λ _, Ret (pys " 93.184.216.34 " ++ nl ++ pys "x");
              gethostbyname := λ _, Raise SocketError;
              read_file := λ _, Raise IOError |} (pys "example.org")
           (pys " 93.184.216.34 " ++ nl ++ pys "x") eq_refl)))
           (pys " 93.184.216.34 ") (pys "x")).
  - apply (bool_decide_unpack _). by vm_compute.
  - reflexivity.
Defined.

(** ** More about the patterns of [get_wifi_info] *)

Lemma match_here_many cls ne grp items s g :
  Re.match_here (Re.Many cls ne grp :: items) s g
  = many_loop cls ne grp items g s [].
Proof.
  cbn [Re.match_here].
  match goal with
  | |- ?f s [] = _ =>
      assert (∀ s' taken, f s' taken = many_loop cls ne grp items g s' taken)
        as Hloop
  end.
  { induction s' as [|c s' IH]; intros taken; [done|].
    cbn [many_loop]. by rewrite <- IH. }
  apply Hloop.
Qed.

Lemma match_here_Eos items s g r :
  Re.match_here (Re.Eos :: items) s g = Some r →
  Re.match_here items s g = Some r.
Proof.
  cbn [Re.match_here]. destruct s as [|c [|c' s]]; [done|..];
    by destruct c as [[] [] [] [] [] [] [] []].
Qed.

Lemma no_group items :
  Forall (λ it, is_group it = false) items →
  ∀ s g r, Re.match_here items s g = Some r → r = g.
Proof.
  induction 1 as [|it items Hit _ IH]; intros s g r H.
  - simpl in H. congruence.
  - destruct it as [cls|cls ne grp|].
    + cbn [Re.match_here] in H. destruct s as [|c s]; [done|].
      destruct (cls c); [by eapply IH|done].
    + assert (grp = false) as -> by (by destruct grp).
      rewrite match_here_many in H. revert H. generalize (@nil ascii).
      induction s as [|c s IHs]; intros taken H; cbn [many_loop] in H.
      * destruct (ne && bool_decide (taken = [])); [done|by eapply IH].
      * destruct (cls c).
        -- destruct (many_loop cls ne false items g s (c :: taken)) eqn:E.
           ++ injection H as ->. by eapply IHs.
           ++ destruct (ne && bool_decide (taken = [])); [done|by eapply IH].
        -- destruct (ne && bool_decide (taken = [])); [done|by eapply IH].
    + apply match_here_Eos in H. by eapply IH.
Qed.

Lemma many_group_capture cls ne post g s taken r :
  Forall (λ it, is_group it = false) post →
  many_loop cls ne true post g s taken = Some r →
  Forall (λ c, cls c = true) taken →
  Forall (λ c, cls c = true) r ∧ (ne = true → r ≠ [])
  ∧ ∃ rest, reverse taken ++ s = r ++ rest.
Proof.
  intros Hpost. revert taken.
  assert (∀ s taken,
    (if ne && bool_decide (taken = []) then None
     else Re.match_here post s (reverse taken)) = Some r →
    Forall (λ c, cls c = true) taken →
    Forall (λ c, cls c = true) r ∧ (ne = true → r ≠ [])
    ∧ ∃ rest, reverse taken ++ s = r ++ rest) as Hstop.
  { intros s' taken H Htaken.
    destruct (ne && bool_decide (taken = [])) eqn:E; [done|].
    apply (no_group post Hpost) in H as ->.
    split; [by apply Forall_reverse|]. split; [|by eexists].
    intros ->. simpl in E. apply bool_decide_eq_false in E.
    intros Hr%(f_equal length). rewrite length_reverse in Hr.
    by destruct taken. }
  induction s as [|c s IH]; intros taken H Htaken; cbn [many_loop] in H.
  - by apply Hstop.
  - destruct (cls c) eqn:Hc; [|by apply Hstop].
    destruct (many_loop cls ne true post g s (c :: taken)) eqn:E;
      [|by apply Hstop].
    injection H as ->.
    destruct (IH _ E) as (H1 & H2 & rest & H3); [by constructor|].
    split; [done|]. split; [done|]. exists rest.
    by rewrite reverse_cons, <- app_assoc in H3.
Qed.

Lemma group_capture pre cls ne post :
  Forall (λ it, is_group it = false) post →
  ∀ s g r,
    Re.match_here (pre ++ Re.Many cls ne true :: post) s g = Some r →
    Forall (λ c, cls c = true) r ∧ (ne = true → r ≠ []).
Proof.
  intros Hpost. induction pre as [|it pre IH]; intros s g r H.
  - simpl app in H. rewrite match_here_many in H.
    destruct (many_group_capture cls ne post g s [] r Hpost H)
      as (? & ? & _); [constructor|done].
  - destruct it as [cls'|cls' ne' grp'|].
    + cbn [app Re.match_here] in H. destruct s as [|c s]; [done|].
      destruct (cls' c); [by eapply IH|done].
    + cbn [app] in H. rewrite match_here_many in H.
      assert (∀ taken,
                many_loop cls' ne' grp' (pre ++ Re.Many cls ne true :: post)
                  g s taken = Some r →
                Forall (λ c, cls c = true) r ∧ (ne = true → r ≠ [])) as Haux;
        [|by apply (Haux [])].
      clear H.
      induction s as [|c s IHs]; intros taken H; cbn [many_loop] in H.
      * destruct (ne' && bool_decide (taken = [])); [done|by eapply IH].
      * destruct (cls' c).
        -- destruct (many_loop cls' ne' grp' _ g s (c :: taken)) eqn:E.
           ++ injection H as ->. by eapply IHs.
           ++ destruct (ne' && bool_decide (taken = [])); [done|by eapply IH].
        -- destruct (ne' && bool_decide (taken = [])); [done|by eapply IH].
    + cbn [app] in H. apply match_here_Eos in H. by eapply IH.
Qed.

Lemma mac_re_capture line m :
  Re.search mac_re line = Some m →
  m ≠ [] ∧ Forall (λ c, Re.hex_colon c = true) m.
Proof.
  unfold Re.search. intros H.
  destruct (group_capture
              (Re.Many Re.dot false false :: Re.lit_ci (pys "access point: "))
              Re.hex_colon true [Re.Many Py.isspace false false; Re.Eos]
              ltac:(by repeat constructor) line [] m H) as [? Hne].
  split; [by apply Hne|done].
Qed.

Lemma interface_re_capture line i :
  Re.search interface_re line = Some i →
  i ≠ [] ∧ Forall (λ c, Py.isspace c = false) i ∧ ∃ rest, line = i ++ rest.
Proof.
  unfold Re.search, interface_re. rewrite match_here_many. intros H.
  destruct (many_group_capture Re.nonspace true
              [Re.Many Py.isspace true false; Re.One Re.nonspace] [] line [] i
              ltac:(by repeat constructor) H ltac:(constructor))
    as (Hcls & Hne & rest & Hrest).
  split; [by apply Hne|]. split; [|by exists rest].
  eapply Forall_impl; [exact Hcls|]. intros c Hc. unfold Re.nonspace in Hc.
  by destruct (Py.isspace c).
Qed.

(** ** More about [get_wifi_info] *)

Lemma wifi_fold_mac st lines :
  wifi_mac (foldl wifi_step st lines)
  = foldl (keep_first mac_re) (wifi_mac st) lines.
Proof.
  revert st. induction lines as [|l lines IH]; intros st; [done|].
  cbn [foldl]. by rewrite IH.
Qed.

Lemma wifi_fold_ssid st lines :
  wifi_ssid (foldl wifi_step st lines)
  = foldl (keep_first ssid_re) (wifi_ssid st) lines.
Proof.
  revert st. induction lines as [|l lines IH]; intros st; [done|].
  cbn [foldl]. by rewrite IH.
Qed.

Lemma fold_keep_stable re m lines :
  m ≠ [] → foldl (keep_first re) (Some m) lines = Some m.
Proof.
  intros Hm. induction lines as [|l lines IH]; [done|].
  cbn [foldl]. unfold keep_first at 2. by destruct m.
Qed.

Lemma fold_keep_none re lines :
  Forall (λ l, Re.search re l = None) lines →
  foldl (keep_first re) None lines = None.
Proof.
  induction 1 as [|l lines Hl _ IH]; [done|].
  cbn [foldl]. unfold keep_first at 2. simpl. by rewrite Hl.
Qed.

Lemma fold_keep_sources re value lines v :
  foldl (keep_first re) value lines = Some v →
  value = Some v ∨ ∃ l, l ∈ lines ∧ Re.search re l = Some v.
Proof.
  revert value. induction lines as [|l lines IH]; intros value H; [by left|].
  cbn [foldl] in H. apply IH in H as [H|(l' & Hin & Hl')].
  - unfold keep_first in H. destruct (falsy value); [|by left].
    destruct (Re.search re l) eqn:Hs; [|by left].
    right. exists l. split; [by left|congruence].
  - right. exists l'. split; [by right|done].
Qed.

Lemma fold_keep_some re value lines :
  is_Some value ∨ (∃ l, l ∈ lines ∧ is_Some (Re.search re l)) →
  is_Some (foldl (keep_first re) value lines).
Proof.
  revert value. induction lines as [|l lines IH]; intros value H.
  - destruct H as [H|(? & []%elem_of_nil & _)]. done.
  - cbn [foldl]. apply IH.
    destruct H as [[v ->]|(l' & [->|Hin]%elem_of_cons & [g Hg])].
    + left. unfold keep_first. by repeat case_match.
    + left. unfold keep_first. rewrite Hg.
      destruct value as [[|? ?]|]; simpl; by eexists.
    + right. exists l'. split; [done|by eexists].
Qed.

(** The MAC is never replaced once it is found, so the [break] does not
    change it. *)
Lemma wifi_loop_mac st lines :
  (wifi_mac st = None ∨ ∃ m, wifi_mac st = Some m ∧ m ≠ []) →
  wifi_mac (wifi_loop st lines)
  = foldl (keep_first mac_re) (wifi_mac st) lines.
Proof.
  revert st. induction lines as [|l lines IH]; intros st Hinv; [done|].
  assert (wifi_mac (wifi_step st l) = keep_first mac_re (wifi_mac st) l)
    as Hstep by done.
  assert (wifi_mac (wifi_step st l) = None
          ∨ ∃ m, wifi_mac (wifi_step st l) = Some m ∧ m ≠ []) as Hinv'.
  { rewrite Hstep. unfold keep_first.
    destruct Hinv as [->|(m & -> & Hm)].
    - simpl. destruct (Re.search mac_re l) as [g|] eqn:Hg; [|by left].
      right. exists g. split; [done|]. by apply mac_re_capture in Hg as [? _].
    - right. exists m. by destruct m. }
  cbn [wifi_loop foldl]. rewrite <- Hstep.
  destruct (wifi_complete (wifi_step st l)) eqn:Hc; [|by apply IH].
  destruct Hinv' as [Hnone|(m & Hm & Hne)].
  - unfold wifi_complete in Hc. rewrite Hnone in Hc.
    by rewrite andb_false_r in Hc.
  - rewrite Hm. by rewrite fold_keep_stable.
Qed.

(** The loop returns the state after the lines it has read, and it leaves
    lines unread only when the state is complete. *)
Lemma wifi_loop_read st lines :
  ∃ read rest, lines = read ++ rest
    ∧ wifi_loop st lines = foldl wifi_step st read
    ∧ (rest ≠ [] → wifi_complete (wifi_loop st lines) = true).
Proof.
  revert st. induction lines as [|l lines IH]; intros st.
  - by exists [], [].
  - cbn [wifi_loop]. destruct (wifi_complete (wifi_step st l)) eqn:Hc.
    + by exists [l], lines.
    + destruct (IH (wifi_step st l)) as (read & rest & -> & Hl & Hrest).
      by exists (l :: read), rest.
Qed.

(** A field that starts unknown or empty ends as the first capture that is
    not empty, or empty when every capture is. *)
Lemma fold_keep_spec re lines value v :
  falsy value = true →
  foldl (keep_first re) value lines = Some v →
  (v ≠ [] ∧ ∃ before l after,
     lines = before ++ l :: after
     ∧ Forall (λ x, Re.search re x = None ∨ Re.search re x = Some []) before
     ∧ Re.search re l = Some v)
  ∨ (v = []
     ∧ Forall (λ x, Re.search re x = None ∨ Re.search re x = Some []) lines).
Proof.
  revert value. induction lines as [|l lines IH]; intros value Hf H.
  - cbn [foldl] in H. subst value. right. destruct v; [|done].
    split; [done|constructor].
  - cbn [foldl] in H. unfold keep_first at 2 in H. rewrite Hf in H.
    destruct (Re.search re l) as [g|] eqn:Hg.
    + destruct (decide (g = [])) as [->|Hne].
      * apply IH in H as [(Hv & before & l' & after & -> & Hb & Hl)|[Hv Hall]];
          [| |done].
        -- left. split; [done|]. exists (l :: before), l', after.
           split; [done|]. split; [|done]. constructor; [by right|done].
        -- right. split; [done|]. constructor; [by right|done].
      * rewrite fold_keep_stable in H by done. injection H as <-.
        left. split; [done|]. by exists [], l, lines.
    + apply IH in H as [(Hv & before & l' & after & -> & Hb & Hl)|[Hv Hall]];
        [| |done].
      * left. split; [done|]. exists (l :: before), l', after.
        split; [done|]. split; [|done]. constructor; [by left|done].
      * right. split; [done|]. constructor; [by left|done].
Qed.

(** ** C7: the first complete state, and the values in it *)

(** C7. When a line with an SSID and a line with an access point occur in
    the output, the scan stops at the first line after which both are known:
    nothing before it was complete, the lines after it are not read, and the
    result is the SSID and the MAC captured up to that line together with
    the name on the last interface line read up to there, also when that line
    opens another block than the one the SSID came from. Of the lines read,
    the MAC is the one on the first line that has an access point, and the
    SSID is the first one that is not empty; the SSID is empty only when
    every SSID read is. *)
Theorem wifi_first_complete output :
  let lines := Py.splitlines output in
  (∃ l, l ∈ lines ∧ is_Some (Re.search ssid_re l)) →
  (∃ l, l ∈ lines ∧ is_Some (Re.search mac_re l)) →
  (∃ pre line post ssid mac,
    lines = pre ++ line :: post
    ∧ (∀ k, (k ≤ length pre)%nat → wifi_complete (wifi_scan (take k pre)) = false)
    ∧ wifi_complete (wifi_scan (pre ++ [line])) = true
    ∧ parse_wifi_info output
      = WifiInfo (last_interface (pre ++ [line])) (Some ssid) (Some mac)
    ∧ (∃ l, l ∈ pre ++ [line] ∧ Re.search ssid_re l = Some ssid)
    ∧ (∃ l, l ∈ pre ++ [line] ∧ Re.search mac_re l = Some mac)
    ∧ (∃ before l after,
         pre ++ [line] = before ++ l :: after
         ∧ Forall (λ x, Re.search mac_re x = None) before
         ∧ Re.search mac_re l = Some mac)
    ∧ ((ssid ≠ [] ∧ ∃ before l after,
          pre ++ [line] = before ++ l :: after
          ∧ Forall (λ x, Re.search ssid_re x = None
                         ∨ Re.search ssid_re x = Some []) before
          ∧ Re.search ssid_re l = Some ssid)
       ∨ (ssid = []
          ∧ Forall (λ x, Re.search ssid_re x = None
                         ∨ Re.search ssid_re x = Some []) (pre ++ [line]))))
  ∧ parse_wifi_info iwconfig_separate_lines
    = WifiInfo (Some (pys "wlan0")) (Some (pys "home"))
        (Some (pys "AA:BB:CC:DD:EE:FF"))
  ∧ parse_wifi_info iwconfig_one_block
    = WifiInfo (Some (pys "wlan0")) (Some (pys "home"))
        (Some (pys "AA:BB:CC:DD:EE:FF"))
  ∧ parse_wifi_info iwconfig_two_blocks
    = WifiInfo (Some (pys "wlan1")) (Some (pys "home"))
        (Some (pys "11:22:33:44:55:66"))
  ∧ parse_wifi_info iwconfig_empty_ssid_first
    = WifiInfo (Some (pys "wlan2")) (Some (pys "home"))
        (Some (pys "AA:AA:AA:AA:AA:AA"))
  ∧ parse_wifi_info iwconfig_two_access_points
    = WifiInfo (Some (pys "wlan0")) (Some (pys "home"))
        (Some (pys "AA:AA:AA:AA:AA:AA"))
  ∧ parse_wifi_info iwconfig_empty_ssid_kept
    = WifiInfo (Some (pys "wlan0")) (Some []) (Some (pys "AA:AA:AA:AA:AA:AA")).
Proof.
  intros lines Hssid Hmac. split; [|by vm_compute].
  assert (wifi_complete (foldl wifi_step wifi_none lines) = true) as Hall
    by (apply wifi_scan_found; by left).
  destruct (first_complete wifi_none lines eq_refl Hall)
    as (pre & line & post & Hlines & Hpre & Hline).
  assert (parse_wifi_info output = wifi_scan (pre ++ [line])) as Hres.
  { unfold parse_wifi_info, wifi_scan. fold lines. rewrite Hlines, foldl_app.
    by apply wifi_loop_stop. }
  assert (wifi_complete (wifi_scan (pre ++ [line])) = true) as Hcomplete
    by (unfold wifi_scan; by rewrite foldl_app).
  pose proof (wifi_scan_interface wifi_none (pre ++ [line])) as Hif.
  destruct (wifi_scan_sources (pre ++ [line])) as [Hs Hm].
  pose proof (wifi_fold_ssid wifi_none (pre ++ [line])) as Hfs.
  pose proof (wifi_fold_mac wifi_none (pre ++ [line])) as Hfm.
  fold (wifi_scan (pre ++ [line])) in Hif, Hfs, Hfm.
  destruct (wifi_scan (pre ++ [line])) as [i [s|] [m|]] eqn:Hst;
    try (by vm_compute in Hcomplete).
  cbn [wifi_ssid wifi_mac wifi_none] in Hfs, Hfm.
  exists pre, line, post, s, m.
  split_and!; [done| |by rewrite Hst| |by apply Hs|by apply Hm| |].
  - intros k Hk. destruct (wifi_complete (wifi_scan (take k pre))) eqn:Hc; [|done].
    unfold wifi_scan in Hc.
    apply (wifi_scan_complete _ (drop k pre)) in Hc.
    rewrite <- foldl_app, take_drop in Hc. congruence.
  - rewrite Hres. simpl in Hif. by rewrite Hif.
  - symmetry in Hfm.
    destruct (fold_keep_spec mac_re (pre ++ [line]) None m eq_refl Hfm)
      as [(Hv & before & l & after & Heq & Hb & Hl)|[-> _]].
    + exists before, l, after. split; [done|]. split; [|done].
      eapply Forall_impl; [exact Hb|]. intros x [Hx|Hx]; [done|].
      by apply mac_re_capture in Hx as [? _].
    + destruct (Hm [] eq_refl) as (l & _ & Hl).
      by apply mac_re_capture in Hl as [? _].
  - symmetry in Hfs.
    exact (fold_keep_spec ssid_re (pre ++ [line]) None s eq_refl Hfs).
Qed.

Lemma wifi_first_complete_witness :
  ∃ pre line post ssid mac,
    Py.splitlines iwconfig_empty_ssid_first = pre ++ line :: post
    ∧ (∀ k, (k ≤ length pre)%nat → wifi_complete (wifi_scan (take k pre)) = false)
    ∧ wifi_complete (wifi_scan (pre ++ [line])) = true
    ∧ parse_wifi_info iwconfig_empty_ssid_first
      = WifiInfo (last_interface (pre ++ [line])) (Some ssid) (Some mac)
    ∧ (∃ l, l ∈ pre ++ [line] ∧ Re.search ssid_re l = Some ssid)
    ∧ (∃ l, l ∈ pre ++ [line] ∧ Re.search mac_re l = Some mac)
    ∧ (∃ before l after,
         pre ++ [line] = before ++ l :: after
         ∧ Forall (λ x, Re.search mac_re x = None) before
         ∧ Re.search mac_re l = Some mac)
    ∧ ((ssid ≠ [] ∧ ∃ before l after,
          pre ++ [line] = before ++ l :: after
          ∧ Forall (λ x, Re.search ssid_re x = None
                         ∨ Re.search ssid_re x = Some []) before
          ∧ Re.search ssid_re l = Some ssid)
       ∨ (ssid = []
          ∧ Forall (λ x, Re.search ssid_re x = None
                         ∨ Re.search ssid_re x = Some []) (pre ++ [line]))).
Proof.
  destruct (wifi_first_complete iwconfig_empty_ssid_first) as [H _];
    [| |exact H].
  - exists (pys "wlan1     IEEE 802.11abgn  ESSID:" ++ [dquote] ++ pys "home"
            ++ [dquote] ++ pys "  ").
    split; [vm_compute; right; left|eexists; by vm_compute].
  - exists (pys "          Mode:Managed  Access Point: AA:AA:AA:AA:AA:AA   ").
    split; [vm_compute; do 3 right; left|eexists; by vm_compute].
Defined.

(** X13. The MAC that [get_wifi_info] reports is the one captured on the
    first line of the output that has an access point, whatever the other
    lines are; it is [None] when no line has one; and a reported MAC is a
    non-empty string of hexadecimal digits and colons. *)
Theorem wifi_mac_first_line output :
  let lines := Py.splitlines output in
  (∀ pre line post m,
     lines = pre ++ line :: post →
     Forall (λ l, Re.search mac_re l = None) pre →
     Re.search mac_re line = Some m →
     wifi_mac (parse_wifi_info output) = Some m)
  ∧ (Forall (λ l, Re.search mac_re l = None) lines →
     wifi_mac (parse_wifi_info output) = None)
  ∧ (∀ m, wifi_mac (parse_wifi_info output) = Some m →
          m ≠ [] ∧ Forall (λ c, Re.hex_colon c = true) m
          ∧ ∃ l, l ∈ lines ∧ Re.search mac_re l = Some m).
Proof.
  intros lines. unfold parse_wifi_info. fold lines.
  rewrite wifi_loop_mac by (by left). cbn [wifi_mac wifi_none].
  split_and!.
  - intros pre line post m -> Hpre Hline.
    rewrite foldl_app, fold_keep_none by done. cbn [foldl].
    unfold keep_first at 2. simpl. rewrite Hline.
    apply fold_keep_stable. by apply mac_re_capture in Hline as [? _].
  - apply fold_keep_none.
  - intros m [[=]|(l & Hin & Hl)]%fold_keep_sources.
    destruct (mac_re_capture _ _ Hl) as [? ?]. eauto.
Qed.

Lemma wifi_mac_first_line_witness :
  wifi_mac (parse_wifi_info iwconfig_two_blocks)
  = Some (pys "11:22:33:44:55:66").
Proof.
  apply (proj1 (wifi_mac_first_line iwconfig_two_blocks)
           (take 4 (Py.splitlines iwconfig_two_blocks))
           (pys "          Mode:Managed  Access Point: 11:22:33:44:55:66   ")
           []).
  - by vm_compute.
  - apply (bool_decide_unpack _). by vm_compute.
  - by vm_compute.
Defined.

(** X14. [get_wifi_info] reports an SSID exactly when some line of the
    output has one, and the SSID reported was captured on a line of the
    output; on an empty output all three results are [None]. *)
Theorem wifi_ssid_reported output :
  let lines := Py.splitlines output in
  (is_Some (wifi_ssid (parse_wifi_info output)) ↔
   ∃ l, l ∈ lines ∧ is_Some (Re.search ssid_re l))
  ∧ (∀ s, wifi_ssid (parse_wifi_info output) = Some s →
          ∃ l, l ∈ lines ∧ Re.search ssid_re l = Some s)
  ∧ (lines = [] → parse_wifi_info output = WifiInfo None None None).
Proof.
  intros lines. unfold parse_wifi_info. fold lines. fold wifi_none.
  destruct (wifi_loop_read wifi_none lines) as (read & rest & Hlines & Hres & Hrest).
  assert (∀ s, wifi_ssid (wifi_loop wifi_none lines) = Some s →
               ∃ l, l ∈ lines ∧ Re.search ssid_re l = Some s) as Hsrc.
  { intros s. rewrite Hres, wifi_fold_ssid.
    intros [[=]|(l & Hin & Hl)]%fold_keep_sources.
    exists l. split; [|done]. rewrite Hlines. apply elem_of_app. by left. }
  split_and!; [split| |].
  - intros [s Hs]. destruct (Hsrc s Hs) as (l & Hin & Hl).
    exists l. split; [done|by eexists].
  - intros Hex. destruct rest as [|r rest].
    + rewrite app_nil_r in Hlines. subst read.
      rewrite Hres, wifi_fold_ssid. apply fold_keep_some. by right.
    + specialize (Hrest ltac:(done)). unfold wifi_complete in Hrest.
      apply andb_true_iff in Hrest as [Hs _].
      apply bool_decide_eq_true in Hs.
      by destruct (wifi_ssid (wifi_loop wifi_none lines)); [eexists|].
  - done.
  - by intros ->.
Qed.

Lemma interface_fold_sources name lines i :
  foldl (λ name line,
           match Re.search interface_re line with
           | Some g => Some g
           | None => name
           end) name lines = Some i →
  name = Some i ∨ ∃ l, l ∈ lines ∧ Re.search interface_re l = Some i.
Proof.
  revert name. induction lines as [|l lines IH]; intros name H; [by left|].
  cbn [foldl] in H. apply IH in H as [H|(l' & Hin & Hl')].
  - destruct (Re.search interface_re l) eqn:Hs; [|by left].
    right. exists l. split; [by left|congruence].
  - right. exists l'. split; [by right|done].
Qed.

(** X15. The interface name that [get_wifi_info] reports is the beginning
    of a line of the output, up to its first whitespace: it is not empty and
    has no whitespace. An empty line or a line that starts with whitespace
    never gives a name, so an output made of such lines gives none. *)
Theorem wifi_interface_word output :
  let lines := Py.splitlines output in
  (∀ i, wifi_interface (parse_wifi_info output) = Some i →
        i ≠ [] ∧ Forall (λ c, Py.isspace c = false) i
        ∧ ∃ l rest, l ∈ lines ∧ l = i ++ rest
                    ∧ Re.search interface_re l = Some i)
  ∧ (∀ c l, Py.isspace c = true → Re.search interface_re (c :: l) = None)
  ∧ Re.search interface_re [] = None
  ∧ (Forall (λ l, Re.search interface_re l = None) lines →
     wifi_interface (parse_wifi_info output) = None).
Proof.
  intros lines. unfold parse_wifi_info. fold lines. fold wifi_none.
  destruct (wifi_loop_read wifi_none lines) as (read & rest & Hlines & Hres & _).
  rewrite Hres, wifi_scan_interface. cbn [wifi_interface wifi_none].
  split_and!.
  - intros i [[=]|(l & Hin & Hl)]%interface_fold_sources.
    destruct (interface_re_capture _ _ Hl) as (Hne & Hword & rest' & Hrest').
    split; [done|]. split; [done|]. exists l, rest'.
    split; [|done]. rewrite Hlines. apply elem_of_app. by left.
  - intros c l Hc. unfold Re.search, interface_re. cbn [Re.match_here].
    unfold Re.nonspace. by rewrite Hc.
  - done.
  - intros Hnone.
    assert (Forall (λ l, Re.search interface_re l = None) read) as Hread.
    { rewrite Hlines in Hnone. by apply Forall_app in Hnone as [? _]. }
    clear -Hread. induction read as [|l ls IH] using rev_ind; [done|].
    apply Forall_app in Hread as [Hls Hl]. apply Forall_cons in Hl as [Hl _].
    rewrite foldl_app. cbn [foldl]. rewrite Hl. by apply IH.
Qed.

Lemma wifi_ssid_reported_witness :
  is_Some (wifi_ssid (parse_wifi_info iwconfig_ssid_only)).
Proof.
  apply (proj1 (wifi_ssid_reported iwconfig_ssid_only)).
  exists (pys "wlan0     IEEE 802.11abgn  ESSID:" ++ [dquote] ++ pys "home"
          ++ [dquote] ++ pys "  ").
  split; [vm_compute; left|eexists; by vm_compute].
Defined.

Lemma wifi_interface_word_witness :
  wifi_interface
    (parse_wifi_info (pys "          Mode:Managed  Access Point: Not-Associated"
                      ++ nl ++ nl)) = None.
Proof.
  apply (proj2 (proj2 (proj2 (wifi_interface_word
           (pys "          Mode:Managed  Access Point: Not-Associated"
            ++ nl ++ nl))))).
  apply (bool_decide_unpack _). by vm_compute.
Defined.

(** ** Nested ranges *)

Lemma mod_pow2_nested addr (j k : Z) :
  0 ≤ addr → 0 ≤ j ≤ k →
  addr `mod` 2 ^ j ≤ addr `mod` 2 ^ k
  ∧ 2 ^ j - addr `mod` 2 ^ j ≤ 2 ^ k - addr `mod` 2 ^ k.
Proof.
  intros Haddr Hjk.
  assert (0 < 2 ^ j) as Hj by (apply Z.pow_pos_nonneg; lia).
  assert (0 < 2 ^ (k - j)) as Hkj by (apply Z.pow_pos_nonneg; lia).
  assert (2 ^ k = 2 ^ j * 2 ^ (k - j)) as Hk
    by (rewrite <- Z.pow_add_r by lia; f_equal; lia).
  assert ((addr `mod` 2 ^ k) `mod` 2 ^ j = addr `mod` 2 ^ j) as Hmm.
  { apply Z.mod_mod_divide. exists (2 ^ (k - j)). lia. }
  pose proof (Z.mod_pos_bound addr (2 ^ k) ltac:(lia)) as Hrk.
  set (rk := addr `mod` 2 ^ k) in *.
  pose proof (Z.div_mod rk (2 ^ j) ltac:(lia)) as Hdm.
  pose proof (Z.mod_pos_bound rk (2 ^ j) ltac:(lia)) as Hrj.
  rewrite Hmm in *.
  assert (0 ≤ rk / 2 ^ j) by (apply Z.div_pos; lia).
  assert (rk / 2 ^ j < 2 ^ (k - j))
    by (apply Z.div_lt_upper_bound; lia).
  split; nia.
Qed.

(** X16. A longer prefix gives a range inside the range of a shorter
    prefix of the same address. *)
Theorem mask_ip_nested ip addr p q :
  parseIPv4 ip = Ret addr → 0 ≤ addr < 4294967296 → 0 ≤ p ≤ q → q ≤ 32 →
  ∃ lower_p upper_p lower_q upper_q lo_p hi_p lo_q hi_q,
    mask_ip ip (Some p) = Ret (lower_p, upper_p)
    ∧ mask_ip ip (Some q) = Ret (lower_q, upper_q)
    ∧ parseIPv4 lower_p = Ret lo_p ∧ parseIPv4 upper_p = Ret hi_p
    ∧ parseIPv4 lower_q = Ret lo_q ∧ parseIPv4 upper_q = Ret hi_q
    ∧ lo_p ≤ lo_q ∧ lo_q ≤ hi_q ∧ hi_q ≤ hi_p.
Proof.
  intros Hparse Haddr Hpq Hq.
  destruct (mask_ip_ints ip addr p Hparse Haddr ltac:(lia)) as (Hlp & Hup & Hmp).
  destruct (mask_ip_ints ip addr q Hparse Haddr ltac:(lia)) as (Hlq & Huq & Hmq).
  destruct (mod_pow2_nested addr (32 - q) (32 - p) ltac:(lia) ltac:(lia))
    as [Hmod Hcomp].
  assert (0 < 2 ^ (32 - q)) by (apply Z.pow_pos_nonneg; lia).
  assert (0 < 2 ^ (32 - p)) by (apply Z.pow_pos_nonneg; lia).
  set (lo_p := addr - addr `mod` 2 ^ (32 - p)) in *.
  set (lo_q := addr - addr `mod` 2 ^ (32 - q)) in *.
  destruct (int_to_ip_text lo_p ltac:(lia)) as (_ & _ & Hp1).
  destruct (int_to_ip_text (lo_p + 2 ^ (32 - p) - 1) ltac:(lia)) as (_ & _ & Hp2).
  destruct (int_to_ip_text lo_q ltac:(lia)) as (_ & _ & Hq1).
  destruct (int_to_ip_text (lo_q + 2 ^ (32 - q) - 1) ltac:(lia)) as (_ & _ & Hq2).
  eexists _, _, _, _, _, _, _, _.
  split; [exact Hmp|]. split; [exact Hmq|].
  split; [exact Hp1|]. split; [exact Hp2|].
  split; [exact Hq1|]. split; [exact Hq2|].
  unfold lo_p, lo_q. lia.
Qed.

Lemma mask_ip_nested_witness :
  ∃ lower_p upper_p lower_q upper_q lo_p hi_p lo_q hi_q,
    mask_ip (pys "104.39.73.7") (Some 16) = Ret (lower_p, upper_p)
    ∧ mask_ip (pys "104.39.73.7") (Some 22) = Ret (lower_q, upper_q)
    ∧ parseIPv4 lower_p = Ret lo_p ∧ parseIPv4 upper_p = Ret hi_p
    ∧ parseIPv4 lower_q = Ret lo_q ∧ parseIPv4 upper_q = Ret hi_q
    ∧ lo_p ≤ lo_q ∧ lo_q ≤ hi_q ∧ hi_q ≤ hi_p.
Proof.
  apply (mask_ip_nested (pys "104.39.73.7") 1747405063 16 22);
    [by vm_compute|lia|lia|lia].
Defined.
